(** * alx-backend-storage, 0x02-redis_basic: [exercise.py] and [web.py]

    A shallow embedding of the two Python modules and of the part of Redis
    and of the Python runtime they drive, followed by the properties of the
    call counters, the call history, [replay], the [Cache] accessors and the
    expiring page cache.

    Conventions.
    - A Python [str] is held as its UTF-8 encoding and [bytes] as itself, both
      as a [string] of octets; the constructor of [pyval] tells them apart.
      Only well-formed UTF-8 stands for a [str] ([utf8_valid]).
    - A computation is a function from the [world] to an outcome and the new
      world.  A raised exception keeps the effects performed before it.
    - The world records every command sent to the Redis server, every HTTP
      request and every printed line, in order ([trace]). *)

From Stdlib Require Import ZArith String Ascii List Lia.
From Stdlib Require Import DecimalString DecimalZ DecimalPos.
From Stdlib Require Import Floats.PrimFloat.
From stdpp Require Import base option list gmap strings.

Open Scope Z_scope.

(** ** Python values, exceptions and text *)

Module Py.

Inductive pyval : Type :=
| PNone
| PStr (s : string)
| PBytes (b : string)
| PInt (z : Z)
| PFloat (f : float).

Inductive exn : Type :=
| TypeError
| ValueError
| UnicodeDecodeError
| DataError
| ResponseError (msg : string)
| RequestException.

(** [repr] of a float, of a [str] and of a [bytes] object are left to the
    interpreter: the first is floating-point formatting, the other two
    depend on quoting rules and, for [str], on the Unicode database. *)
Class Repr : Type := {
  repr_float : float -> string;
  repr_str : string -> string;
  repr_bytes : string -> string
}.

(** [repr(n)] for an [int]: the decimal numeral, ["-"] first when negative.
    Integers are unbounded; the interpreter's cap on the number of digits it
    converts is left out. *)
Definition dec (z : Z) : string := NilZero.string_of_int (Z.to_int z).

Definition byte_in (lo hi : N) (c : ascii) : bool :=
  ((lo <=? N_of_ascii c) && (N_of_ascii c <=? hi))%N.

(** ASCII white space as [bytes.strip] and [int] see it. *)
Definition is_space (c : ascii) : bool :=
  byte_in 9 13 c || byte_in 32 32 c.

Definition is_digit (c : ascii) : bool := byte_in 48 57 c.

Definition digit_val (c : ascii) : Z := Z.of_N (N_of_ascii c) - 48.

Fixpoint lstrip (s : string) : string :=
  match s with
  | String c r => if is_space c then lstrip r else s
  | EmptyString => EmptyString
  end.

Fixpoint rstrip (s : string) : string :=
  match s with
  | String c r =>
      match rstrip r with
      | EmptyString => if is_space c then EmptyString else String c EmptyString
      | r' => String c r'
      end
  | EmptyString => EmptyString
  end.

(** The digits of an [int] literal in base 10: at least one digit, and single
    underscores between digits only.  [after_digit] tells whether the
    previous character was a digit. *)
Fixpoint int_digits (s : string) (acc : Z) (after_digit : bool) : option Z :=
  match s with
  | EmptyString => if after_digit then Some acc else None
  | String c r =>
      if is_digit c then int_digits r (10 * acc + digit_val c) true
      else if Ascii.eqb c "_" && after_digit then int_digits r acc false
      else None
  end.

(** [int(b)] for a [bytes] object [b]; [None] stands for [ValueError]. *)
Definition int_of_bytes (b : string) : option Z :=
  match rstrip (lstrip b) with
  | String "-" r => option_map Z.opp (int_digits r 0 false)
  | String "+" r => int_digits r 0 false
  | s => int_digits s 0 false
  end.

Definition cont (c : ascii) : bool := byte_in 0x80 0xbf c.

(** Well-formed UTF-8 (the table of the Unicode standard: no overlong form,
    no surrogate, nothing above U+10FFFF). *)
Fixpoint utf8_valid (s : string) : bool :=
  match s with
  | EmptyString => true
  | String c0 r0 =>
    if byte_in 0x00 0x7f c0 then utf8_valid r0 else
    match r0 with
    | EmptyString => false
    | String c1 r1 =>
      if byte_in 0xc2 0xdf c0 then cont c1 && utf8_valid r1 else
      match r1 with
      | EmptyString => false
      | String c2 r2 =>
        if byte_in 0xe0 0xe0 c0 then byte_in 0xa0 0xbf c1 && cont c2 && utf8_valid r2
        else if byte_in 0xed 0xed c0 then byte_in 0x80 0x9f c1 && cont c2 && utf8_valid r2
        else if byte_in 0xe1 0xef c0 then cont c1 && cont c2 && utf8_valid r2
        else
        match r2 with
        | EmptyString => false
        | String c3 r3 =>
          if byte_in 0xf0 0xf0 c0
          then byte_in 0x90 0xbf c1 && cont c2 && cont c3 && utf8_valid r3
          else if byte_in 0xf1 0xf3 c0
          then cont c1 && cont c2 && cont c3 && utf8_valid r3
          else if byte_in 0xf4 0xf4 c0
          then byte_in 0x80 0x8f c1 && cont c2 && cont c3 && utf8_valid r3
          else false
        end
      end
    end
  end.

Section WithRepr.
Context `{Repr}.

Definition repr (v : pyval) : string :=
  match v with
  | PNone => "None"
  | PStr s => repr_str s
  | PBytes b => repr_bytes b
  | PInt z => dec z
  | PFloat f => repr_float f
  end.

(** [str(v)]: a [str] is itself, anything else is its [repr]. *)
Definition str (v : pyval) : string :=
  match v with
  | PStr s => s
  | _ => repr v
  end.

Fixpoint join_reprs (vs : list pyval) : string :=
  match vs with
  | [] => ""
  | [v] => repr v
  | v :: rest => repr v +:+ ", " +:+ join_reprs rest
  end.

(** [str(args)] for the tuple of positional arguments. *)
Definition str_tuple (args : list pyval) : string :=
  match args with
  | [v] => "(" +:+ repr v +:+ ",)"
  | _ => "(" +:+ join_reprs args +:+ ")"
  end.

End WithRepr.

End Py.

(** ** The world: the Redis database, the clock, the network, the trace *)

Module World.
Import Py.

(** A Redis value: a string of octets or a list of them. *)
Inductive rvalue : Type :=
| RString (b : string)
| RList (l : list string).

(** A key's record: its value and, when it has a time to live, the instant
    (in milliseconds) at which it expires. *)
Record entry : Type := Entry { value : rvalue; expire : option Z }.

Inductive command : Type :=
| SET (k v : string)
| SETEX (k : string) (seconds : Z) (v : string)
| GET (k : string)
| INCR (k : string)
| RPUSH (k v : string)
| LRANGE (k : string) (start stop : Z)
| FLUSHDB.

Inductive event : Type :=
| Cmd (c : command)
| Http (url : string)
| Print (line : string).

Record world : Type := MkWorld {
  db : gmap string entry;
  now : Z;
  internet : string -> option string;
  urandom : nat -> N;
  drawn : nat;
  trace : list event
}.

Definition set_db (d : gmap string entry) (w : world) : world :=
  MkWorld d (now w) (internet w) (urandom w) (drawn w) (trace w).

Definition log (e : event) (w : world) : world :=
  MkWorld (db w) (now w) (internet w) (urandom w) (drawn w) (trace w ++ [e]).

(** Several events appended to the trace, nothing else touched. *)
Definition logs (es : list event) (w : world) : world :=
  MkWorld (db w) (now w) (internet w) (urandom w) (drawn w) (trace w ++ es).

(** Writing the record of one key. *)
Definition put (k : string) (e : entry) (w : world) : world :=
  set_db (<[k := e]> (db w)) w.

(** One more draw taken from the random source. *)
Definition draw (w : world) : world :=
  MkWorld (db w) (now w) (internet w) (urandom w) (S (drawn w)) (trace w).

(** What lies outside the program may change between two calls: the clock
    and the content served at each URL. *)
Definition set_env (t : Z) (net : string -> option string) (w : world) : world :=
  MkWorld (db w) t net (urandom w) (drawn w) (trace w).

Definition at_time (t : Z) (w : world) : world := set_env t (internet w) w.

Inductive outcome (A : Type) : Type :=
| Ok (a : A)
| Raise (e : exn).
Arguments Ok {A} a.
Arguments Raise {A} e.

Definition M (A : Type) : Type := world -> outcome A * world.

Definition ret {A} (a : A) : M A := fun w => (Ok a, w).

Definition raise {A} (e : exn) : M A := fun w => (Raise e, w).

Definition bind {A B} (m : M A) (k : A -> M B) : M B :=
  fun w =>
    match m w with
    | (Ok a, w') => k a w'
    | (Raise e, w') => (Raise e, w')
    end.

Definition lift {A} (o : outcome A) : M A := fun w => (o, w).

Definition emit (e : event) : M unit := fun w => (Ok tt, log e w).

(** The entry of a key at the present instant: a key is present strictly
    before its deadline and absent from the deadline on. *)
Definition alive (t : Z) (e : entry) : bool :=
  match expire e with
  | Some deadline => t <? deadline
  | None => true
  end.

Definition lookup_live (w : world) (k : string) : option entry :=
  match db w !! k with
  | Some e => if alive (now w) e then Some e else None
  | None => None
  end.

End World.

Declare Scope run_scope.
Notation "x <- m ;; k" := (World.bind m (fun x => k))
  (at level 100, m at next level, right associativity) : run_scope.
Notation "m ;; k" := (World.bind m (fun _ => k))
  (at level 100, right associativity) : run_scope.
Open Scope run_scope.

(** ** Redis: the server's commands and the client's methods

    The seven commands the two modules send, with the replies and errors of
    the Redis server: a command on a key of the wrong kind is refused, a key
    past its deadline is absent, [INCR] and [RPUSH] keep the time to live of
    the key they rewrite and [SET] drops it.  The client ([redis.Redis] with
    its default settings) encodes the values and hands back raw bytes. *)

Module Redis.
Import Py World.

Definition WRONGTYPE : exn :=
  ResponseError "WRONGTYPE Operation against a key holding the wrong kind of value".
Definition not_an_integer : exn :=
  ResponseError "value is not an integer or out of range".
Definition would_overflow : exn :=
  ResponseError "increment or decrement would overflow".
Definition invalid_expire : exn :=
  ResponseError "invalid expire time in 'setex' command".

Definition LLONG_MAX : Z := 9223372036854775807.
Definition LLONG_MIN : Z := -9223372036854775808.

(** The server reads a counter strictly: the canonical decimal numeral of a
    signed 64-bit integer and nothing else. *)
Definition string2ll (s : string) : option Z :=
  match NilZero.int_of_string s with
  | Some d =>
      let z := Z.of_int d in
      if String.eqb (dec z) s && (LLONG_MIN <=? z) && (z <=? LLONG_MAX)
      then Some z else None
  | None => None
  end.

Definition server_get (k : string) : M (option string) :=
  emit (Cmd (GET k)) ;;
  fun w =>
    match lookup_live w k with
    | None => (Ok None, w)
    | Some (Entry (RString b) _) => (Ok (Some b), w)
    | Some (Entry (RList _) _) => (Raise WRONGTYPE, w)
    end.

Definition server_set (k v : string) : M unit :=
  emit (Cmd (SET k v)) ;;
  fun w => (Ok tt, put k (Entry (RString v) None) w).

Definition server_setex (k : string) (seconds : Z) (v : string) : M unit :=
  emit (Cmd (SETEX k seconds v)) ;;
  fun w =>
    if seconds <=? 0 then (Raise invalid_expire, w)
    else (Ok tt, put k (Entry (RString v) (Some (now w + seconds * 1000))) w).

Definition server_incr (k : string) : M Z :=
  emit (Cmd (INCR k)) ;;
  fun w =>
    let bump (z : Z) (ttl : option Z) :=
      if LLONG_MAX <=? z then (Raise would_overflow, w)
      else (Ok (z + 1), put k (Entry (RString (dec (z + 1))) ttl) w) in
    match lookup_live w k with
    | None => bump 0 None
    | Some (Entry (RString s) ttl) =>
        match string2ll s with
        | Some z => bump z ttl
        | None => (Raise not_an_integer, w)
        end
    | Some (Entry (RList _) _) => (Raise WRONGTYPE, w)
    end.

Definition server_rpush (k v : string) : M Z :=
  emit (Cmd (RPUSH k v)) ;;
  fun w =>
    match lookup_live w k with
    | None =>
        (Ok 1, put k (Entry (RList [v]) None) w)
    | Some (Entry (RList l) ttl) =>
        (Ok (Z.of_nat (length l) + 1), put k (Entry (RList (l ++ [v])) ttl) w)
    | Some (Entry (RString _) _) => (Raise WRONGTYPE, w)
    end.

(** The sub-list from [start] to [stop], both inclusive, negative indexes
    counting from the end. *)
Definition range (l : list string) (start stop : Z) : list string :=
  let llen := Z.of_nat (length l) in
  let start := if start <? 0 then llen + start else start in
  let stop := if stop <? 0 then llen + stop else stop in
  let start := if start <? 0 then 0 else start in
  if (stop <? start) || (llen <=? start) then []
  else
    let stop := if llen <=? stop then llen - 1 else stop in
    take (Z.to_nat (stop - start + 1)) (drop (Z.to_nat start) l).

Definition server_lrange (k : string) (start stop : Z) : M (list string) :=
  emit (Cmd (LRANGE k start stop)) ;;
  fun w =>
    match lookup_live w k with
    | None => (Ok [], w)
    | Some (Entry (RList l) _) => (Ok (range l start stop), w)
    | Some (Entry (RString _) _) => (Raise WRONGTYPE, w)
    end.

Definition server_flushdb : M unit :=
  emit (Cmd FLUSHDB) ;;
  fun w => (Ok tt, set_db ∅ w).

Section Client.
Context `{Repr}.

(** What the client writes on the wire for a value: [bytes] as they are, a
    [str] in UTF-8, a number as its [repr]; any other type is refused before
    anything is sent. *)
Definition encode (v : pyval) : outcome string :=
  match v with
  | PBytes b => Ok b
  | PStr s => Ok s
  | PInt z => Ok (dec z)
  | PFloat f => Ok (repr_float f)
  | PNone => Raise DataError
  end.

Definition get (name : string) : M (option string) := server_get name.

Definition set (name : string) (v : pyval) : M unit :=
  b <- lift (encode v) ;; server_set name b.

Definition setex (name : string) (time : Z) (v : pyval) : M unit :=
  b <- lift (encode v) ;; server_setex name time b.

Definition incr (name : string) : M Z := server_incr name.

Definition rpush (name : string) (v : pyval) : M Z :=
  b <- lift (encode v) ;; server_rpush name b.

Definition lrange (name : string) (start stop : Z) : M (list string) :=
  server_lrange name start stop.

Definition flushdb : M unit := server_flushdb.

End Client.

End Redis.

(** ** The Python runtime the two modules call *)

Module Runtime.
Import Py World.

(** [b.decode("utf-8")] *)
Definition decode (b : string) : M string :=
  if utf8_valid b then ret b else raise UnicodeDecodeError.

(** [print(line)] *)
Definition print (line : string) : M unit := emit (Print line).

Definition hex_digit (n : N) : ascii :=
  match n with
  | 0 => "0" | 1 => "1" | 2 => "2" | 3 => "3" | 4 => "4" | 5 => "5"
  | 6 => "6" | 7 => "7" | 8 => "8" | 9 => "9" | 10 => "a" | 11 => "b"
  | 12 => "c" | 13 => "d" | 14 => "e" | _ => "f"
  end%N%char.

(** The [len] hexadecimal digits of [u] that end at digit [pos] (digit 0 is
    the least significant), most significant first. *)
Fixpoint hex_field (u : N) (pos len : nat) : string :=
  match len with
  | O => EmptyString
  | S l =>
      String (hex_digit (N.land (N.shiftr u (4 * N.of_nat (pos + l))) 15))
             (hex_field u pos l)
  end.

(** [str(u)] for a [uuid.UUID] of integer value [u]: 8-4-4-4-12. *)
Definition uuid_str (u : N) : string :=
  hex_field u 24 8 +:+ "-" +:+ hex_field u 20 4 +:+ "-" +:+ hex_field u 16 4
  +:+ "-" +:+ hex_field u 12 4 +:+ "-" +:+ hex_field u 0 12.

(** The integer of a version-4 UUID made from 16 random bytes [r]. *)
Definition uuid4_int (r : N) : N :=
  let i := (r mod 2 ^ 128)%N in
  let i := N.ldiff i (N.shiftl 0xc000 48) in
  let i := N.lor i (N.shiftl 0x8000 48) in
  let i := N.ldiff i (N.shiftl 0xf000 64) in
  N.lor i (N.shiftl 4 76).

(** [uuid.uuid4()]: the next draw from the random source. *)
Definition uuid4 : M N :=
  fun w =>
    (Ok (uuid4_int (urandom w (drawn w))), draw w).

(** [requests.get(url).text]: the content the network serves at [url] now,
    or a failed request. *)
Definition requests_get_text (url : string) : M string :=
  emit (Http url) ;;
  fun w =>
    match internet w url with
    | Some body => (Ok body, w)
    | None => (Raise RequestException, w)
    end.

End Runtime.

(** ** exercise.py *)

Module Exercise.
Import Py World Runtime.

(** A method object: its [__qualname__] and what calling it does with the
    positional arguments.  Keyword arguments are passed through by the
    decorators and recorded nowhere; they are left out. *)
Record callable : Type := Callable {
  qualname : string;
  call : list pyval -> M pyval
}.

Section Decorators.
Context `{Repr}.

Definition count_calls (method : callable) : callable :=
  {| qualname := qualname method;
     call := fun args =>
       let key := qualname method in
       Redis.incr key ;;
       call method args |}.

Definition call_history (method : callable) : callable :=
  {| qualname := qualname method;
     call := fun args =>
       let input_key := qualname method +:+ ":inputs" in
       let output_key := qualname method +:+ ":outputs" in
       Redis.rpush input_key (PStr (str_tuple args)) ;;
       result <- call method args ;;
       Redis.rpush output_key (PStr (str result)) ;;
       ret result |}.

(** The loop of [replay] over [zip(inputs, outputs)]. *)
Fixpoint replay_lines (name : string) (pairs : list (string * string)) : M unit :=
  match pairs with
  | [] => ret tt
  | (i, o) :: rest =>
      i' <- decode i ;;
      o' <- decode o ;;
      print (name +:+ "(*" +:+ i' +:+ ") -> " +:+ o') ;;
      replay_lines name rest
  end.

Definition replay (method : callable) : M pyval :=
  let name := qualname method in
  inputs <- Redis.lrange (name +:+ ":inputs") 0 (-1) ;;
  outputs <- Redis.lrange (name +:+ ":outputs") 0 (-1) ;;
  print (name +:+ " was called " +:+ dec (Z.of_nat (length inputs)) +:+ " times:") ;;
  replay_lines name (zip inputs outputs) ;;
  ret PNone.

End Decorators.

Module Cache.
Section Methods.
Context `{Repr}.

(** [Cache.__init__]: the connection is opened lazily, so the only command
    is the flush. *)
Definition __init__ : M unit := Redis.flushdb.

(** The body of [Cache.store], before decoration. *)
Definition store_body : callable :=
  {| qualname := "Cache.store";
     call := fun args =>
       match args with
       | [data] =>
           u <- uuid4 ;;
           let key := uuid_str u in
           Redis.set key data ;;
           ret (PStr key)
       | _ => raise TypeError
       end |}.

Definition store : callable := call_history (count_calls store_body).

(** [Cache.get]; a function object is true, so [if fn:] asks whether a
    converter was given. *)
Definition get (key : string) (fn : option (string -> M pyval)) : M pyval :=
  val <- Redis.get key ;;
  match val with
  | None => ret PNone
  | Some val =>
      match fn with
      | Some fn => fn val
      | None => ret (PBytes val)
      end
  end.

Definition get_str (key : string) : M pyval :=
  get key (Some (fun d => s <- decode d ;; ret (PStr s))).

Definition get_int (key : string) : M pyval :=
  get key (Some (fun d =>
    match int_of_bytes d with
    | Some z => ret (PInt z)
    | None => raise ValueError
    end)).

End Methods.
End Cache.

End Exercise.

(** ** web.py *)

Module Web.
Import Py World Runtime.

Section Decorators.
Context `{Repr}.

Definition count_url_access (method : string -> M string) : string -> M string :=
  fun url =>
    let redis_key := "count:" +:+ url in
    Redis.incr redis_key ;;
    method url.

(** [if cached_data:] holds for a [bytes] object that is not empty. *)
Definition cache_result (expire : Z) (method : string -> M string) : string -> M string :=
  fun url =>
    cached_data <- Redis.get url ;;
    match cached_data with
    | Some (String _ _ as cached_data) => decode cached_data
    | _ =>
        result <- method url ;;
        Redis.setex url expire (PStr result) ;;
        ret result
    end.

(** The body of [get_page], before decoration. *)
Definition get_page_body (url : string) : M string := requests_get_text url.

Definition get_page : string -> M string :=
  count_url_access (cache_result 10 get_page_body).

End Decorators.

End Web.

(** ** Reading the database, and running several calls *)

Module View.
Import Py World.

(** The time to live attached to a key that is present. *)
Definition ttl_at (w : world) (k : string) : option Z :=
  match lookup_live w k with
  | Some e => expire e
  | None => None
  end.

(** The integer the server reads at a key, as [INCR] does: an absent key
    counts for zero; [None] when the key holds anything but a counter. *)
Definition counter (w : world) (k : string) : option Z :=
  match lookup_live w k with
  | None => Some 0
  | Some (Entry (RString s) _) => Redis.string2ll s
  | Some (Entry (RList _) _) => None
  end.

(** The whole list at a key, as [LRANGE k 0 -1] answers: an absent key is the
    empty list; [None] when the key holds a string. *)
Definition list_at (w : world) (k : string) : option (list string) :=
  match lookup_live w k with
  | None => Some []
  | Some (Entry (RList l) _) => Some l
  | Some (Entry (RString _) _) => None
  end.

(** The line [replay] prints for one recorded call. *)
Definition replay_line (name : string) (p : string * string) : event :=
  Print (name +:+ "(*" +:+ fst p +:+ ") -> " +:+ snd p).

(** The key the next call of [Cache.store] draws. *)
Definition next_key (w : world) : string :=
  Runtime.uuid_str (Runtime.uuid4_int (urandom w (drawn w))).

(** A counter that never expires: the key is absent (zero) or holds the
    numeral of [c] with no time to live. *)
Definition lasting_counter (w : world) (k : string) (c : Z) : Prop :=
  match db w !! k with
  | None => c = 0
  | Some (Entry (RString s) None) => Redis.string2ll s = Some c
  | Some _ => False
  end.

(** The record of a counter that was incremented to [n] from nothing, and
    of a list that was pushed to from nothing: neither has a time to live,
    and neither exists before the first write. *)
Definition counter_record (n : Z) : option entry :=
  if n =? 0 then None else Some (Entry (RString (dec n)) None).

Definition list_record (l : list string) : option entry :=
  match l with
  | [] => None
  | _ => Some (Entry (RList l) None)
  end.

(** The bookkeeping of the method called [name] after [n] counted calls with
    recorded inputs [ins] and outputs [outs]. *)
Definition history_state (w : world) (name : string) (n : Z)
    (ins outs : list string) : Prop :=
  0 <= n <= Redis.LLONG_MAX /\
  db w !! name = counter_record n /\
  db w !! (name +:+ ":inputs") = list_record ins /\
  db w !! (name +:+ ":outputs") = list_record outs.

End View.

Module Script.
Import Py World Exercise.

(** A caller making one call after the other, each at its own instant, and
    stopping at the first exception as a Python script does. *)
Fixpoint call_all (method : callable) (calls : list (Z * list pyval)) : M (list pyval) :=
  match calls with
  | [] => ret []
  | (t, args) :: rest =>
      r <- (fun w => call method args (at_time t w)) ;;
      rs <- call_all method rest ;;
      ret (r :: rs)
  end.

(** [cache.get(cache.store(data))] *)
Definition get_stored `{Repr} (data : pyval) : M pyval :=
  key <- call Cache.store [data] ;;
  match key with
  | PStr key => Cache.get key None
  | _ => raise TypeError
  end.

(** A caller fetching the same page again and again, whatever each call
    returns or raises; before each call the clock and the network take the
    given values. *)
Fixpoint visit (fetch : string -> M string) (url : string)
    (envs : list (Z * (string -> option string))) (w : world) : world :=
  match envs with
  | [] => w
  | (t, net) :: rest => visit fetch url rest (snd (fetch url (set_env t net w)))
  end.

End Script.

(** ** Sample data for the worked instances *)

Module Demo.
Import Py World.

(** A [repr] good for printable ASCII without quotes or backslashes. *)
#[export] Instance plain : Repr := {|
  repr_float := fun _ => "0.5";
  repr_str := fun s => "'" +:+ s +:+ "'";
  repr_bytes := fun b => "b'" +:+ b +:+ "'"
|}.

Definition site (url : string) : option string :=
  if String.eqb url "http://empty.example" then Some ""
  else if String.eqb url "http://hello.example" then Some "hello"
  else None.

(** An empty database at instant 0. *)
Definition fresh : world :=
  MkWorld ∅ 0 site (fun n => (N.of_nat n * 1311768467463790320)%N) 0 [].

(** Three calls of [Cache.store] on a new [Cache], and the world after
    them. *)
Definition three_calls : list (Z * list pyval) :=
  [(0, [PStr "a"]); (5000, [PStr "b"]); (9000, [PInt 3])].

Definition three_keys : list string :=
  ["00000000-0000-4000-8000-000000000000";
   "00000000-0000-4000-9234-56789abcdef0";
   "00000000-0000-4000-a468-acf13579bde0"].

Definition busy : world :=
  snd (Script.call_all Exercise.Cache.store three_calls
         (snd (Exercise.Cache.__init__ fresh))).

Definition empty_page : string := "http://empty.example".
Definition hello_page : string := "http://hello.example".
Definition down_page : string := "http://down.example".

(** One byte that is not UTF-8, and a database in which another client has
    left it: in a history list of the method ["m"], under the key ["blob"],
    and under the key of a page. *)
Definition raw : string := String (ascii_of_N 255) EmptyString.

Definition foreign : world :=
  MkWorld
    (<["m:inputs" := Entry (RList ["(1,)"; raw; "(3,)"]) None]>
     (<["m:outputs" := Entry (RList ["a"; "b"; "c"]) None]>
      (<["blob" := Entry (RString raw) None]>
       (<[hello_page := Entry (RString raw) None]> ∅))))
    0 site (fun _ => 0%N) 0 [].

Definition noted : Exercise.callable :=
  {| Exercise.qualname := "m"; Exercise.call := fun _ => ret PNone |}.

(** A method that writes a string where its own outputs would be recorded,
    and a database in which the key of its inputs holds a string. *)
Definition clobber : Exercise.callable :=
  {| Exercise.qualname := "job";
     Exercise.call := fun _ => Redis.set "job:outputs" (PStr "x") ;; ret PNone |}.

Definition taken : world := put "job:inputs" (Entry (RString "x") None) fresh.

End Demo.

(** ** Facts about text: lengths, numerals *)

Module TextFacts.
Import Py Runtime.

Lemma length_append (a b : string) :
  String.length (a +:+ b) = (String.length a + String.length b)%nat.
Proof. induction a as [|c a IH]; simpl; [reflexivity | now rewrite IH]. Qed.

Lemma length_differs (a b : string) :
  String.length a <> String.length b -> a <> b.
Proof. intros Hlen Heq. apply Hlen. now rewrite Heq. Qed.

Lemma length_hex_field (u : N) (pos len : nat) :
  String.length (hex_field u pos len) = len.
Proof. induction len as [|l IH]; simpl; [reflexivity | now rewrite IH]. Qed.

Lemma length_uuid_str (u : N) : String.length (uuid_str u) = 36%nat.
Proof.
  unfold uuid_str. rewrite !length_append, !length_hex_field. reflexivity.
Qed.

Lemma uuid_str_not (u : N) (k : string) :
  String.length k <> 36%nat -> uuid_str u <> k.
Proof.
  intros Hk. apply length_differs. rewrite length_uuid_str. congruence.
Qed.

Lemma suffix_differs (name a b : string) :
  String.length a <> String.length b -> name +:+ a <> name +:+ b.
Proof. intros Hab. apply length_differs. rewrite !length_append. lia. Qed.

Lemma prefix_differs (p url : string) :
  p <> EmptyString -> p +:+ url <> url.
Proof.
  intros Hp. apply length_differs. rewrite length_append.
  destruct p; [congruence | simpl; lia].
Qed.

Lemma append_differs (name a : string) :
  a <> EmptyString -> name <> name +:+ a.
Proof.
  intros Ha. apply length_differs. rewrite length_append.
  destruct a; [congruence | simpl; lia].
Qed.

(** The digits of a numeral, read back. *)
Lemma int_digits_acc (d : Decimal.uint) (acc : positive) :
  int_digits (NilEmpty.string_of_uint d) (Z.pos acc) true
  = Some (Z.pos (Pos.of_uint_acc d acc)).
Proof.
  revert acc. induction d; intros acc; simpl; try reflexivity;
    rewrite <- IHd; f_equal; unfold digit_val; simpl; lia.
Qed.

Lemma int_digits_zero (d : Decimal.uint) :
  int_digits (NilEmpty.string_of_uint d) 0 true = Some (Z.of_N (Pos.of_uint d)).
Proof.
  induction d; unfold digit_val; simpl; try reflexivity; try assumption;
    apply (int_digits_acc d).
Qed.

Lemma int_digits_first (d : Decimal.uint) :
  d <> Decimal.Nil ->
  int_digits (NilEmpty.string_of_uint d) 0 false
  = int_digits (NilEmpty.string_of_uint d) 0 true.
Proof. destruct d; intros Hd; [congruence | reflexivity ..]. Qed.

Lemma rstrip_cons (c : ascii) (s : string) :
  is_space c = false -> rstrip s = s -> rstrip (String c s) = String c s.
Proof. intros Hc Hs. simpl. rewrite Hs, Hc. destruct s; reflexivity. Qed.

Lemma rstrip_numeral (d : Decimal.uint) :
  rstrip (NilEmpty.string_of_uint d) = NilEmpty.string_of_uint d.
Proof.
  induction d; [reflexivity | ..];
    (apply rstrip_cons; [reflexivity | assumption]).
Qed.

Lemma lstrip_numeral (d : Decimal.uint) :
  lstrip (NilEmpty.string_of_uint d) = NilEmpty.string_of_uint d.
Proof. destruct d; reflexivity. Qed.

Lemma int_of_bytes_numeral (d : Decimal.uint) :
  d <> Decimal.Nil ->
  int_of_bytes (NilEmpty.string_of_uint d)
  = int_digits (NilEmpty.string_of_uint d) 0 false.
Proof.
  intros Hd. unfold int_of_bytes. rewrite lstrip_numeral, rstrip_numeral.
  destruct d; [congruence | reflexivity ..].
Qed.

Lemma int_of_bytes_minus (d : Decimal.uint) :
  int_of_bytes (String "-" (NilEmpty.string_of_uint d))
  = option_map Z.opp (int_digits (NilEmpty.string_of_uint d) 0 false).
Proof.
  unfold int_of_bytes.
  change (lstrip (String "-" ?s)) with (String "-" s).
  rewrite rstrip_cons by (reflexivity || apply rstrip_numeral). reflexivity.
Qed.

Lemma numeral_of_pos (p : positive) :
  NilZero.string_of_uint (Pos.to_uint p) = NilEmpty.string_of_uint (Pos.to_uint p).
Proof.
  pose proof (Unsigned.to_uint_nonnil p) as Hp.
  destruct (Pos.to_uint p); [congruence | reflexivity ..].
Qed.

Lemma int_digits_pos (p : positive) :
  int_digits (NilEmpty.string_of_uint (Pos.to_uint p)) 0 false = Some (Z.pos p).
Proof.
  rewrite int_digits_first by apply Unsigned.to_uint_nonnil.
  rewrite int_digits_zero, Unsigned.of_to. reflexivity.
Qed.

(** [int(repr(z).encode())] is [z]. *)
Lemma int_of_bytes_dec (z : Z) : int_of_bytes (dec z) = Some z.
Proof.
  unfold dec. destruct z as [|p|p]; [reflexivity | |];
    simpl NilZero.string_of_int; rewrite numeral_of_pos.
  - rewrite int_of_bytes_numeral by apply Unsigned.to_uint_nonnil.
    apply int_digits_pos.
  - rewrite int_of_bytes_minus, int_digits_pos. reflexivity.
Qed.

Lemma to_int_proper (z : Z) :
  Z.to_int z <> Decimal.Pos Decimal.Nil /\ Z.to_int z <> Decimal.Neg Decimal.Nil.
Proof.
  destruct z as [|p|p]; simpl; (split; [|]); try discriminate;
    intros Heq; injection Heq as Heq; exact (Unsigned.to_uint_nonnil p Heq).
Qed.

(** The server reads back the numeral of any signed 64-bit integer. *)
Lemma string2ll_dec (z : Z) :
  Redis.LLONG_MIN <= z <= Redis.LLONG_MAX -> Redis.string2ll (dec z) = Some z.
Proof.
  intros [Hlo Hhi]. unfold Redis.string2ll, dec.
  destruct (to_int_proper z) as [Hp Hn].
  rewrite NilZero.isi by assumption. rewrite DecimalZ.of_to.
  rewrite String.eqb_refl.
  apply Z.leb_le in Hlo, Hhi. rewrite Hlo, Hhi. reflexivity.
Qed.

Lemma string2ll_range (s : string) (z : Z) :
  Redis.string2ll s = Some z -> Redis.LLONG_MIN <= z <= Redis.LLONG_MAX.
Proof.
  unfold Redis.string2ll. destruct (NilZero.int_of_string s) as [d|]; [|discriminate].
  destruct (String.eqb _ _); simpl; [|discriminate].
  destruct (Redis.LLONG_MIN <=? _) eqn:Hlo; simpl; [|discriminate].
  destruct (_ <=? Redis.LLONG_MAX) eqn:Hhi; [|discriminate].
  intros [= <-]. apply Z.leb_le in Hlo, Hhi. lia.
Qed.

Lemma string2ll_canonical (s : string) (z : Z) :
  Redis.string2ll s = Some z -> s = dec z.
Proof.
  unfold Redis.string2ll. destruct (NilZero.int_of_string s) as [d|]; [|discriminate].
  destruct (String.eqb _ _) eqn:Heq; simpl; [|discriminate].
  destruct (_ && _); [|discriminate].
  intros [= <-]. apply String.eqb_eq in Heq. now symmetry.
Qed.

End TextFacts.

(** ** Facts about the world and the Redis commands *)

Module WorldFacts.
Import Py World View.

Lemma bind_ok {A B} (m : M A) (k : A -> M B) (w w' : world) (a : A) :
  m w = (Ok a, w') -> bind m k w = k a w'.
Proof. intros Hm. unfold bind. now rewrite Hm. Qed.

Lemma bind_raise {A B} (m : M A) (k : A -> M B) (w w' : world) (e : exn) :
  m w = (Raise e, w') -> bind m k w = (Raise e, w').
Proof. intros Hm. unfold bind. now rewrite Hm. Qed.

Lemma world_eq (w w' : world) :
  db w = db w' -> now w = now w' -> internet w = internet w' ->
  urandom w = urandom w' -> drawn w = drawn w' -> trace w = trace w' ->
  w = w'.
Proof. destruct w, w'. simpl. congruence. Qed.

Section Fields.
Variables (w : world) (k : string) (e : entry) (ev : event).
Variables (t : Z) (net : string -> option string).

Lemma db_put : db (put k e w) = <[k := e]> (db w). Proof. reflexivity. Qed.
Lemma db_log : db (log ev w) = db w. Proof. reflexivity. Qed.
Lemma db_draw : db (draw w) = db w. Proof. reflexivity. Qed.
Lemma db_set_env : db (set_env t net w) = db w. Proof. reflexivity. Qed.
Lemma db_at_time : db (at_time t w) = db w. Proof. reflexivity. Qed.
Lemma now_put : now (put k e w) = now w. Proof. reflexivity. Qed.
Lemma now_log : now (log ev w) = now w. Proof. reflexivity. Qed.
Lemma now_draw : now (draw w) = now w. Proof. reflexivity. Qed.
Lemma now_set_env : now (set_env t net w) = t. Proof. reflexivity. Qed.
Lemma now_at_time : now (at_time t w) = t. Proof. reflexivity. Qed.
Lemma internet_put : internet (put k e w) = internet w. Proof. reflexivity. Qed.
Lemma internet_log : internet (log ev w) = internet w. Proof. reflexivity. Qed.
Lemma internet_draw : internet (draw w) = internet w. Proof. reflexivity. Qed.
Lemma internet_set_env : internet (set_env t net w) = net. Proof. reflexivity. Qed.
Lemma urandom_put : urandom (put k e w) = urandom w. Proof. reflexivity. Qed.
Lemma urandom_log : urandom (log ev w) = urandom w. Proof. reflexivity. Qed.
Lemma urandom_draw : urandom (draw w) = urandom w. Proof. reflexivity. Qed.
Lemma drawn_put : drawn (put k e w) = drawn w. Proof. reflexivity. Qed.
Lemma drawn_log : drawn (log ev w) = drawn w. Proof. reflexivity. Qed.
Lemma drawn_draw : drawn (draw w) = S (drawn w). Proof. reflexivity. Qed.
Lemma trace_put : trace (put k e w) = trace w. Proof. reflexivity. Qed.
Lemma trace_log : trace (log ev w) = trace w ++ [ev]. Proof. reflexivity. Qed.
Lemma trace_draw : trace (draw w) = trace w. Proof. reflexivity. Qed.
Lemma trace_set_env : trace (set_env t net w) = trace w. Proof. reflexivity. Qed.
Lemma trace_at_time : trace (at_time t w) = trace w. Proof. reflexivity. Qed.
Lemma next_key_put : next_key (put k e w) = next_key w. Proof. reflexivity. Qed.
Lemma next_key_log : next_key (log ev w) = next_key w. Proof. reflexivity. Qed.

Lemma log_logs : log ev w = logs [ev] w. Proof. reflexivity. Qed.
Lemma db_logs (es : list event) : db (logs es w) = db w. Proof. reflexivity. Qed.
Lemma trace_logs (es : list event) : trace (logs es w) = trace w ++ es.
Proof. reflexivity. Qed.
Lemma now_logs (es : list event) : now (logs es w) = now w. Proof. reflexivity. Qed.
Lemma logs_logs (es es' : list event) : logs es' (logs es w) = logs (es ++ es') w.
Proof. unfold logs. simpl. now rewrite app_assoc. Qed.

End Fields.

Create Rewrite HintDb fields.
#[export] Hint Rewrite db_put db_log db_draw db_set_env db_at_time
  now_put now_log now_draw now_set_env now_at_time
  internet_put internet_log internet_draw internet_set_env
  urandom_put urandom_log urandom_draw
  drawn_put drawn_log drawn_draw
  trace_put trace_log trace_draw trace_set_env trace_at_time
  next_key_put next_key_log db_logs trace_logs now_logs : fields.

Lemma lookup_live_put_eq (k : string) (e : entry) (w : world) :
  lookup_live (put k e w) k = if alive (now w) e then Some e else None.
Proof. unfold lookup_live, put. simpl. now rewrite lookup_insert_eq. Qed.

Lemma lookup_live_put_ne (k k' : string) (e : entry) (w : world) :
  k <> k' -> lookup_live (put k e w) k' = lookup_live w k'.
Proof. intros Hk. unfold lookup_live, put. simpl. now rewrite lookup_insert_ne. Qed.

Lemma lookup_live_alive (w : world) (k : string) (e : entry) :
  lookup_live w k = Some e -> alive (now w) e = true.
Proof.
  unfold lookup_live. destruct (db w !! k) as [e'|]; [|discriminate].
  destruct (alive (now w) e') eqn:Ha; [|discriminate]. now intros [= <-].
Qed.

(** A record rewritten with the time to live it had is still present. *)
Lemma alive_ttl_at (w : world) (k : string) (v : rvalue) :
  alive (now w) (Entry v (ttl_at w k)) = true.
Proof.
  unfold ttl_at. destruct (lookup_live w k) as [e|] eqn:He; [|reflexivity].
  apply lookup_live_alive in He. destruct e as [v' t]. exact He.
Qed.

Lemma lookup_live_rewrite (w : world) (k : string) (v : rvalue) :
  lookup_live (put k (Entry v (ttl_at w k)) w) k = Some (Entry v (ttl_at w k)).
Proof. now rewrite lookup_live_put_eq, alive_ttl_at. Qed.

Lemma counter_log (e : event) (w : world) (k : string) :
  counter (log e w) k = counter w k.
Proof. reflexivity. Qed.

Lemma list_at_log (e : event) (w : world) (k : string) :
  list_at (log e w) k = list_at w k.
Proof. reflexivity. Qed.

Lemma ttl_at_log (e : event) (w : world) (k : string) :
  ttl_at (log e w) k = ttl_at w k.
Proof. reflexivity. Qed.

Lemma counter_draw (w : world) (k : string) : counter (draw w) k = counter w k.
Proof. reflexivity. Qed.

Lemma list_at_draw (w : world) (k : string) : list_at (draw w) k = list_at w k.
Proof. reflexivity. Qed.

Lemma ttl_at_draw (w : world) (k : string) : ttl_at (draw w) k = ttl_at w k.
Proof. reflexivity. Qed.

Lemma next_key_not (w : world) (k : string) :
  String.length k <> 36%nat -> next_key w <> k.
Proof. apply TextFacts.uuid_str_not. Qed.

Lemma counter_put_ne (k k' : string) (e : entry) (w : world) :
  k <> k' -> counter (put k e w) k' = counter w k'.
Proof. intros Hk. unfold counter. now rewrite lookup_live_put_ne. Qed.

Lemma list_at_put_ne (k k' : string) (e : entry) (w : world) :
  k <> k' -> list_at (put k e w) k' = list_at w k'.
Proof. intros Hk. unfold list_at. now rewrite lookup_live_put_ne. Qed.

Lemma ttl_at_put_ne (k k' : string) (e : entry) (w : world) :
  k <> k' -> ttl_at (put k e w) k' = ttl_at w k'.
Proof. intros Hk. unfold ttl_at. now rewrite lookup_live_put_ne. Qed.

Create Rewrite HintDb views.
#[export] Hint Rewrite counter_log list_at_log ttl_at_log counter_draw
  list_at_draw ttl_at_draw : views.
#[export] Hint Rewrite counter_put_ne list_at_put_ne ttl_at_put_ne
  using (first [ discriminate | apply next_key_not; discriminate
               | apply not_eq_sym, next_key_not; discriminate ]) : views.

Lemma list_at_rewrite (w : world) (k : string) (l : list string) :
  list_at (put k (Entry (RList l) (ttl_at w k)) w) k = Some l.
Proof. unfold list_at. now rewrite lookup_live_rewrite. Qed.

Lemma counter_range (w : world) (k : string) (n : Z) :
  counter w k = Some n -> Redis.LLONG_MIN <= n <= Redis.LLONG_MAX.
Proof.
  unfold counter. destruct (lookup_live w k) as [[[s|l] t]|].
  - apply TextFacts.string2ll_range.
  - discriminate.
  - intros [= <-]. unfold Redis.LLONG_MIN, Redis.LLONG_MAX. lia.
Qed.

Lemma counter_rewrite (w : world) (k : string) (n : Z) :
  Redis.LLONG_MIN <= n <= Redis.LLONG_MAX ->
  counter (put k (Entry (RString (dec n)) (ttl_at w k)) w) k = Some n.
Proof.
  intros Hn. unfold counter. rewrite lookup_live_rewrite.
  now apply TextFacts.string2ll_dec.
Qed.

Lemma range_all (l : list string) : Redis.range l 0 (-1) = l.
Proof.
  unfold Redis.range.
  repeat match goal with
         | |- context [Z.ltb ?a ?b] => destruct (Z.ltb_spec a b)
         | |- context [Z.leb ?a ?b] => destruct (Z.leb_spec a b)
         end; simpl orb; cbv iota;
    change (0 <? 0) with false in *; cbv iota in *; try lia.
  all: try (destruct l; [reflexivity | simpl length in *; lia]).
  all: change (Z.to_nat 0) with 0%nat; rewrite drop_0; apply take_ge; lia.
Qed.

Lemma decode_valid (b : string) (w : world) :
  utf8_valid b = true -> Runtime.decode b w = (Ok b, w).
Proof. intros Hb. unfold Runtime.decode. now rewrite Hb. Qed.

Section Commands.
Context `{Repr}.

Lemma get_run (k : string) (w : world) :
  Redis.get k w =
  (match lookup_live w k with
   | None => Ok None
   | Some (Entry (RString b) _) => Ok (Some b)
   | Some (Entry (RList _) _) => Raise Redis.WRONGTYPE
   end, log (Cmd (GET k)) w).
Proof.
  unfold Redis.get, Redis.server_get, bind, emit.
  change (lookup_live (log (Cmd (GET k)) w) k) with (lookup_live w k).
  destruct (lookup_live w k) as [[[b|l] t]|]; reflexivity.
Qed.

Lemma incr_run (k : string) (w : world) (n : Z) :
  counter w k = Some n -> n < Redis.LLONG_MAX ->
  Redis.incr k w =
  (Ok (n + 1),
   put k (Entry (RString (dec (n + 1))) (ttl_at w k)) (log (Cmd (INCR k)) w)).
Proof.
  intros Hc Hn. unfold Redis.incr, Redis.server_incr, bind, emit.
  change (lookup_live (log (Cmd (INCR k)) w) k) with (lookup_live w k).
  unfold counter in Hc. unfold ttl_at.
  apply Z.leb_gt in Hn.
  destruct (lookup_live w k) as [[[s|l] t]|].
  - rewrite Hc, Hn. reflexivity.
  - discriminate.
  - injection Hc as <-. reflexivity.
Qed.

Lemma incr_overflow (k : string) (w : world) (n : Z) :
  counter w k = Some n -> Redis.LLONG_MAX <= n ->
  Redis.incr k w = (Raise Redis.would_overflow, log (Cmd (INCR k)) w).
Proof.
  intros Hc Hn. unfold Redis.incr, Redis.server_incr, bind, emit.
  change (lookup_live (log (Cmd (INCR k)) w) k) with (lookup_live w k).
  unfold counter in Hc. apply Z.leb_le in Hn.
  destruct (lookup_live w k) as [[[s|l] t]|].
  - rewrite Hc, Hn. reflexivity.
  - discriminate.
  - injection Hc as <-. discriminate.
Qed.

Lemma rpush_run (k v : string) (w : world) (l : list string) :
  list_at w k = Some l ->
  Redis.rpush k (PStr v) w =
  (Ok (Z.of_nat (length l) + 1),
   put k (Entry (RList (l ++ [v])) (ttl_at w k)) (log (Cmd (RPUSH k v)) w)).
Proof.
  intros Hl. unfold Redis.rpush, Redis.server_rpush, bind, emit, lift. simpl.
  change (lookup_live (log (Cmd (RPUSH k v)) w) k) with (lookup_live w k).
  unfold list_at in Hl. unfold ttl_at.
  destruct (lookup_live w k) as [[[s|l'] t]|].
  - discriminate.
  - injection Hl as ->. reflexivity.
  - injection Hl as <-. reflexivity.
Qed.

Lemma lrange_all (k : string) (w : world) (l : list string) :
  list_at w k = Some l ->
  Redis.lrange k 0 (-1) w = (Ok l, log (Cmd (LRANGE k 0 (-1))) w).
Proof.
  intros Hl. unfold Redis.lrange, Redis.server_lrange, bind, emit.
  change (lookup_live (log (Cmd (LRANGE k 0 (-1))) w) k) with (lookup_live w k).
  unfold list_at in Hl.
  destruct (lookup_live w k) as [[[s|l'] t]|].
  - discriminate.
  - injection Hl as ->. now rewrite range_all.
  - injection Hl as <-. reflexivity.
Qed.

Lemma set_run (k : string) (v : pyval) (b : string) (w : world) :
  Redis.encode v = Ok b ->
  Redis.set k v w = (Ok tt, put k (Entry (RString b) None) (log (Cmd (SET k b)) w)).
Proof.
  intros Hv. unfold Redis.set, Redis.server_set, bind, emit, lift.
  now rewrite Hv.
Qed.

Lemma set_refused (k : string) (v : pyval) (e : exn) (w : world) :
  Redis.encode v = Raise e -> Redis.set k v w = (Raise e, w).
Proof.
  intros Hv. unfold Redis.set, bind, lift. now rewrite Hv.
Qed.

Lemma setex_run (k v : string) (seconds : Z) (w : world) :
  0 < seconds ->
  Redis.setex k seconds (PStr v) w =
  (Ok tt,
   put k (Entry (RString v) (Some (now w + seconds * 1000)))
       (log (Cmd (SETEX k seconds v)) w)).
Proof.
  intros Hs. unfold Redis.setex, Redis.server_setex, bind, emit, lift. simpl.
  apply Z.leb_gt in Hs. now rewrite Hs.
Qed.

End Commands.

End WorldFacts.

(** ** exercise.py: the decorators and [Cache.store] *)

Module ExerciseFacts.
Import Py World Runtime View Exercise WorldFacts.

Section Layers.
Context `{Repr}.

Lemma store_body_run (w : world) (data : pyval) (b : string) :
  Redis.encode data = Ok b ->
  call Cache.store_body [data] w =
  (Ok (PStr (next_key w)),
   put (next_key w) (Entry (RString b) None) (log (Cmd (SET (next_key w) b)) (draw w))).
Proof.
  intros Hb. cbn [call Cache.store_body].
  rewrite (bind_ok _ _ w (draw w) (uuid4_int (urandom w (drawn w)))) by reflexivity.
  erewrite bind_ok by (apply set_run; exact Hb). reflexivity.
Qed.

Lemma store_body_refused (w : world) (data : pyval) (e : exn) :
  Redis.encode data = Raise e ->
  call Cache.store_body [data] w = (Raise e, draw w).
Proof.
  intros Hb. cbn [call Cache.store_body].
  rewrite (bind_ok _ _ w (draw w) (uuid4_int (urandom w (drawn w)))) by reflexivity.
  erewrite bind_raise by (apply set_refused; exact Hb). reflexivity.
Qed.

Lemma count_calls_run (method : callable) (args : list pyval) (w : world) (n : Z) :
  counter w (qualname method) = Some n -> n < Redis.LLONG_MAX ->
  call (count_calls method) args w =
  call method args
    (put (qualname method) (Entry (RString (dec (n + 1))) (ttl_at w (qualname method)))
         (log (Cmd (INCR (qualname method))) w)).
Proof.
  intros Hc Hn. cbn [call count_calls].
  erewrite bind_ok by (apply incr_run; eassumption). reflexivity.
Qed.

Lemma count_calls_overflow (method : callable) (args : list pyval) (w : world)
    (n : Z) :
  counter w (qualname method) = Some n -> Redis.LLONG_MAX <= n ->
  call (count_calls method) args w =
  (Raise Redis.would_overflow, log (Cmd (INCR (qualname method))) w).
Proof.
  intros Hc Hn. cbn [call count_calls].
  erewrite bind_raise by (apply (incr_overflow _ _ n); assumption). reflexivity.
Qed.

Lemma call_history_run (method : callable) (args : list pyval) (w : world)
    (ins : list string) :
  list_at w (qualname method +:+ ":inputs") = Some ins ->
  call (call_history method) args w =
  match call method args
          (put (qualname method +:+ ":inputs")
               (Entry (RList (ins ++ [str_tuple args]))
                      (ttl_at w (qualname method +:+ ":inputs")))
               (log (Cmd (RPUSH (qualname method +:+ ":inputs") (str_tuple args))) w))
  with
  | (Ok result, w2) =>
      (Redis.rpush (qualname method +:+ ":outputs") (PStr (str result)) ;; ret result) w2
  | (Raise e, w2) => (Raise e, w2)
  end.
Proof.
  intros Hl. cbn [call call_history].
  erewrite bind_ok by (apply rpush_run; eassumption).
  unfold bind at 1. reflexivity.
Qed.

(** A successful [Cache.store], command by command. *)
Lemma store_run (w : world) (data : pyval) (b : string) (n : Z)
    (ins outs : list string) :
  list_at w "Cache.store:inputs" = Some ins ->
  list_at w "Cache.store:outputs" = Some outs ->
  counter w "Cache.store" = Some n -> n < Redis.LLONG_MAX ->
  Redis.encode data = Ok b ->
  call Cache.store [data] w =
  (Ok (PStr (next_key w)),
   MkWorld
     (<["Cache.store:outputs" :=
          Entry (RList (outs ++ [next_key w])) (ttl_at w "Cache.store:outputs")]>
      (<[next_key w := Entry (RString b) None]>
       (<["Cache.store" :=
            Entry (RString (dec (n + 1))) (ttl_at w "Cache.store")]>
        (<["Cache.store:inputs" :=
             Entry (RList (ins ++ [str_tuple [data]])) (ttl_at w "Cache.store:inputs")]>
         (db w)))))
     (now w) (internet w) (urandom w) (S (drawn w))
     (trace w ++ [Cmd (RPUSH "Cache.store:inputs" (str_tuple [data]));
                  Cmd (INCR "Cache.store");
                  Cmd (SET (next_key w) b);
                  Cmd (RPUSH "Cache.store:outputs" (next_key w))])).
Proof.
  intros Hin Hout Hc Hn Hb. unfold Cache.store.
  rewrite (call_history_run _ _ _ ins) by exact Hin.
  cbn [qualname count_calls Cache.store_body].
  change ("Cache.store" +:+ ":inputs") with "Cache.store:inputs".
  change ("Cache.store" +:+ ":outputs") with "Cache.store:outputs".
  rewrite (count_calls_run _ _ _ n);
    [ | cbn [qualname Cache.store_body]; autorewrite with views; assumption
      | exact Hn ].
  cbn [qualname Cache.store_body].
  rewrite (store_body_run _ _ b) by exact Hb.
  erewrite bind_ok;
    [ | apply (rpush_run _ _ _ outs); autorewrite with views; exact Hout ].
  unfold ret, str. autorewrite with views fields.
  f_equal. apply world_eq; cbn [db now internet urandom drawn trace];
    autorewrite with fields; try reflexivity.
  rewrite <- !app_assoc. reflexivity.
Qed.

Lemma history_state_views (w : world) (name : string) (n : Z)
    (ins outs : list string) :
  history_state w name n ins outs ->
  counter w name = Some n /\
  list_at w (name +:+ ":inputs") = Some ins /\
  list_at w (name +:+ ":outputs") = Some outs /\
  ttl_at w name = None /\
  ttl_at w (name +:+ ":inputs") = None /\
  ttl_at w (name +:+ ":outputs") = None.
Proof.
  intros (Hn & Hc & Hi & Ho).
  unfold counter, list_at, ttl_at, lookup_live. rewrite Hc, Hi, Ho.
  unfold counter_record, list_record.
  split; [|split; [|split; [|split; [|split]]]].
  - destruct (n =? 0) eqn:E.
    + apply Z.eqb_eq in E. now subst.
    + cbn [alive expire]. apply TextFacts.string2ll_dec.
      unfold Redis.LLONG_MIN. lia.
  - destruct ins; reflexivity.
  - destruct outs; reflexivity.
  - destruct (n =? 0); reflexivity.
  - destruct ins; reflexivity.
  - destruct outs; reflexivity.
Qed.

Ltac store_keys :=
  cbn [qualname count_calls call_history Cache.store_body] in *;
  change ("Cache.store" +:+ ":inputs") with "Cache.store:inputs" in *;
  change ("Cache.store" +:+ ":outputs") with "Cache.store:outputs" in *.

(** A call of [Cache.store] that returns was given one value the client can
    send, and found the counter below its maximum. *)
Lemma store_ok_inv (w w1 : world) (args : list pyval) (r : pyval) (n : Z)
    (ins outs : list string) :
  list_at w "Cache.store:inputs" = Some ins ->
  list_at w "Cache.store:outputs" = Some outs ->
  counter w "Cache.store" = Some n ->
  call Cache.store args w = (Ok r, w1) ->
  n < Redis.LLONG_MAX /\ exists data b, args = [data] /\ Redis.encode data = Ok b.
Proof.
  intros Hin Hout Hc Hrun. unfold Cache.store in Hrun.
  rewrite (call_history_run _ _ _ ins) in Hrun by exact Hin.
  store_keys.
  destruct (Z.lt_ge_cases n Redis.LLONG_MAX) as [Hn|Hn].
  - split; [exact Hn|].
    rewrite (count_calls_run _ _ _ n) in Hrun;
      [ | store_keys; autorewrite with views; assumption | exact Hn ].
    destruct args as [|data [|x rest]].
    + discriminate Hrun.
    + destruct (Redis.encode data) as [b|e] eqn:Hb; [eauto|].
      rewrite (store_body_refused _ _ e) in Hrun by exact Hb. discriminate Hrun.
    + discriminate Hrun.
  - rewrite (count_calls_overflow _ _ _ n) in Hrun;
      [ | store_keys; autorewrite with views; assumption | exact Hn ].
    discriminate Hrun.
Qed.

Lemma store_step (w w1 : world) (t : Z) (args : list pyval) (r : pyval) (n : Z)
    (ins outs : list string) :
  history_state w "Cache.store" n ins outs ->
  call Cache.store args (at_time t w) = (Ok r, w1) ->
  history_state w1 "Cache.store" (n + 1) (ins ++ [str_tuple args]) (outs ++ [str r]).
Proof.
  intros Hst Hrun.
  assert (history_state (at_time t w) "Cache.store" n ins outs) as Hst' by exact Hst.
  destruct (history_state_views _ _ _ _ _ Hst') as (Hc & Hi & Ho & Tc & Ti & To).
  store_keys.
  destruct (store_ok_inv _ _ _ _ _ _ _ Hi Ho Hc Hrun) as (Hn & data & b & -> & Hb).
  rewrite (store_run _ _ b n ins outs) in Hrun by assumption.
  injection Hrun as <- <-. rewrite Tc, Ti, To.
  destruct Hst as (Hn0 & _).
  unfold history_state. store_keys. cbn [db str].
  assert (next_key (at_time t w) <> "Cache.store") as K1
    by (apply next_key_not; discriminate).
  assert (next_key (at_time t w) <> "Cache.store:inputs") as K2
    by (apply next_key_not; discriminate).
  assert (next_key (at_time t w) <> "Cache.store:outputs") as K3
    by (apply next_key_not; discriminate).
  split; [lia|]. split; [|split].
  - rewrite lookup_insert_ne, lookup_insert_ne, lookup_insert_eq by (assumption || discriminate).
    unfold counter_record. destruct (n + 1 =? 0) eqn:E; [|reflexivity].
    apply Z.eqb_eq in E. lia.
  - rewrite !lookup_insert_ne, lookup_insert_eq by (assumption || discriminate).
    destruct ins; reflexivity.
  - rewrite lookup_insert_eq. destruct outs; reflexivity.
Qed.

Lemma call_all_history (calls : list (Z * list pyval)) :
  forall (w w' : world) (keys : list pyval) (n : Z) (ins outs : list string),
  history_state w "Cache.store" n ins outs ->
  Script.call_all Cache.store calls w = (Ok keys, w') ->
  history_state w' "Cache.store" (n + Z.of_nat (length calls))
    (ins ++ map (fun c => str_tuple (snd c)) calls) (outs ++ map str keys)
  /\ length keys = length calls.
Proof.
  induction calls as [|[t args] rest IH]; intros w w' keys n ins outs Hst Hrun.
  - injection Hrun as <- <-. simpl. rewrite Z.add_0_r, !app_nil_r. auto.
  - cbn [Script.call_all] in Hrun. unfold bind at 1 in Hrun.
    destruct (call Cache.store args (at_time t w)) as [[r|e] w1] eqn:Hcall;
      [|discriminate Hrun].
    unfold bind at 1 in Hrun.
    destruct (Script.call_all Cache.store rest w1) as [[rs|e] w2] eqn:Hrest;
      [|discriminate Hrun].
    injection Hrun as <- <-.
    pose proof (store_step _ _ _ _ _ _ _ _ Hst Hcall) as Hst1.
    destruct (IH _ _ _ _ _ _ Hst1 Hrest) as (Hst2 & Hlen).
    split; [|simpl; congruence].
    cbn [map length snd].
    replace (n + Z.of_nat (S (length rest))) with (n + 1 + Z.of_nat (length rest)) by lia.
    rewrite <- !app_assoc in Hst2. exact Hst2.
Qed.


Lemma init_run (w : world) :
  Cache.__init__ w = (Ok tt, set_db ∅ (log (Cmd FLUSHDB) w)).
Proof. reflexivity. Qed.

Lemma history_state_empty (w : world) (name : string) :
  db w = ∅ -> history_state w name 0 [] [].
Proof.
  intros Hdb. unfold history_state. rewrite Hdb, !lookup_empty.
  unfold Redis.LLONG_MAX. repeat split; lia.
Qed.

(** C3. After a new [Cache] and any run of N calls of [store] that all
    return, the counter at ["Cache.store"] reads N, and the lists
    ["Cache.store:inputs"] and ["Cache.store:outputs"] hold exactly the N
    recorded arguments and the N returned keys, in call order. *)
Theorem store_counts_and_records (w0 w' : world) (calls : list (Z * list pyval))
    (keys : list pyval) :
  Script.call_all Cache.store calls (snd (Cache.__init__ w0)) = (Ok keys, w') ->
  counter w' "Cache.store" = Some (Z.of_nat (length calls)) /\
  list_at w' "Cache.store:inputs" = Some (map (fun c => str_tuple (snd c)) calls) /\
  list_at w' "Cache.store:outputs" = Some (map str keys) /\
  length keys = length calls.
Proof.
  intros Hrun.
  assert (history_state (snd (Cache.__init__ w0)) "Cache.store" 0 [] []) as Hst
    by (apply history_state_empty; reflexivity).
  destruct (call_all_history _ _ _ _ _ _ _ Hst Hrun) as (Hst' & Hlen).
  destruct (history_state_views _ _ _ _ _ Hst') as (Hc & Hi & Ho & _).
  store_keys. simpl in Hc, Hi, Ho. auto.
Qed.


(** [Cache.store] refused by the client: the input and the count are there. *)
Lemma store_refused (w : world) (data : pyval) (e : exn) (n : Z)
    (ins : list string) :
  list_at w "Cache.store:inputs" = Some ins ->
  counter w "Cache.store" = Some n -> n < Redis.LLONG_MAX ->
  Redis.encode data = Raise e ->
  call Cache.store [data] w =
  (Raise e,
   draw
     (put "Cache.store"
        (Entry (RString (dec (n + 1))) (ttl_at w "Cache.store"))
        (log (Cmd (INCR "Cache.store"))
           (put "Cache.store:inputs"
              (Entry (RList (ins ++ [str_tuple [data]]))
                     (ttl_at w "Cache.store:inputs"))
              (log (Cmd (RPUSH "Cache.store:inputs" (str_tuple [data]))) w))))).
Proof.
  intros Hin Hc Hn Hb. unfold Cache.store.
  rewrite (call_history_run _ _ _ ins) by exact Hin.
  store_keys.
  rewrite (count_calls_run _ _ _ n);
    [ | store_keys; autorewrite with views; assumption | exact Hn ].
  store_keys.
  rewrite (store_body_refused _ _ e) by exact Hb.
  autorewrite with views. reflexivity.
Qed.


Lemma replay_lines_run (name : string) (pairs : list (string * string)) :
  forall w : world,
  Forall (fun p => utf8_valid (fst p) = true /\ utf8_valid (snd p) = true) pairs ->
  replay_lines name pairs w = (Ok tt, logs (map (replay_line name) pairs) w).
Proof.
  induction pairs as [|[i o] rest IH]; intros w Hvalid.
  - unfold logs. simpl. rewrite app_nil_r. now destruct w.
  - inversion Hvalid as [|? ? [Hi Ho] Hrest]; subst. cbn [replay_lines].
    rewrite (bind_ok _ _ _ _ _ (decode_valid i w Hi)).
    rewrite (bind_ok _ _ _ _ _ (decode_valid o w Ho)).
    unfold print. rewrite (bind_ok _ _ w (log (replay_line name (i, o)) w) tt)
      by reflexivity.
    rewrite IH by exact Hrest. rewrite log_logs, logs_logs. reflexivity.
Qed.

Lemma Forall_zip_valid (ins outs : list string) :
  Forall (fun i => utf8_valid i = true) ins ->
  Forall (fun o => utf8_valid o = true) outs ->
  Forall (fun p => utf8_valid (fst p) = true /\ utf8_valid (snd p) = true)
         (zip ins outs).
Proof.
  intros Hins. revert outs. induction Hins as [|i ins Hi _ IH]; intros outs Houts.
  - constructor.
  - destruct Houts as [|o outs Ho Houts]; [constructor|].
    simpl. constructor; [split; assumption | now apply IH].
Qed.

(** C6. [replay] sends two [LRANGE 0 -1] and nothing else to the server,
    prints the header with the number of recorded inputs, then one line
    "name(*input) -> output" per pair of [zip(inputs, outputs)], as many as
    the shorter list has entries; the database is left as it was.  With no
    recorded input the header reports 0 and no line follows. *)
Theorem replay_prints_history (method : callable) (w : world)
    (ins outs : list string) :
  let name := qualname method in
  let w' := snd (replay method w) in
  list_at w (name +:+ ":inputs") = Some ins ->
  list_at w (name +:+ ":outputs") = Some outs ->
  Forall (fun i => utf8_valid i = true) ins ->
  Forall (fun o => utf8_valid o = true) outs ->
  replay method w =
    (Ok PNone,
     logs ([Cmd (LRANGE (name +:+ ":inputs") 0 (-1));
            Cmd (LRANGE (name +:+ ":outputs") 0 (-1));
            Print (name +:+ " was called " +:+ dec (Z.of_nat (length ins)) +:+ " times:")]
           ++ map (replay_line name) (zip ins outs)) w) /\
  db w' = db w /\
  length (map (replay_line name) (zip ins outs)) = Nat.min (length ins) (length outs) /\
  (ins = [] ->
   trace w' = trace w ++ [Cmd (LRANGE (name +:+ ":inputs") 0 (-1));
                          Cmd (LRANGE (name +:+ ":outputs") 0 (-1));
                          Print (name +:+ " was called 0 times:")]).
Proof.
  intros name w' Hin Hout Vin Vout.
  assert (replay method w =
    (Ok PNone,
     logs ([Cmd (LRANGE (name +:+ ":inputs") 0 (-1));
            Cmd (LRANGE (name +:+ ":outputs") 0 (-1));
            Print (name +:+ " was called " +:+ dec (Z.of_nat (length ins)) +:+ " times:")]
           ++ map (replay_line name) (zip ins outs)) w)) as Hrun.
  { unfold replay. fold name.
    rewrite (bind_ok _ _ _ _ _ (lrange_all _ w ins Hin)).
    rewrite (bind_ok _ _ _ _ _ (lrange_all _ (log _ w) outs Hout)).
    unfold print at 1.
    erewrite bind_ok by reflexivity.
    rewrite (bind_ok _ _ _ _ _ (replay_lines_run name _ _ (Forall_zip_valid _ _ Vin Vout))).
    unfold ret. rewrite !log_logs, !logs_logs. reflexivity. }
  subst w'. rewrite Hrun. cbn [snd].
  split; [reflexivity|]. split; [reflexivity|].
  split; [now rewrite length_map, length_zip_with|].
  intros ->. reflexivity.
Qed.

(** C7. [get] on a key that is absent (or expired) sends one [GET] and
    returns [None], whatever the converter: it is not called.  So do
    [get_str] and [get_int]. *)
Theorem get_missing_is_none (key : string) (fn : option (string -> M pyval))
    (w : world) :
  lookup_live w key = None ->
  Cache.get key fn w = (Ok PNone, log (Cmd (GET key)) w) /\
  Cache.get_str key w = (Ok PNone, log (Cmd (GET key)) w) /\
  Cache.get_int key w = (Ok PNone, log (Cmd (GET key)) w).
Proof.
  intros Hk.
  assert (forall fn, Cache.get key fn w = (Ok PNone, log (Cmd (GET key)) w)) as Hget.
  { intros fn'. unfold Cache.get, bind. rewrite get_run, Hk. reflexivity. }
  split; [apply Hget|]. split; apply Hget.
Qed.

Lemma get_plain_run (key s : string) (ttl : option Z) (w : world) :
  lookup_live w key = Some (Entry (RString s) ttl) ->
  Cache.get key None w = (Ok (PBytes s), log (Cmd (GET key)) w).
Proof.
  intros Hk. unfold Cache.get, bind. rewrite get_run, Hk. reflexivity.
Qed.

Lemma get_int_run (key s : string) (ttl : option Z) (w : world) :
  lookup_live w key = Some (Entry (RString s) ttl) ->
  Cache.get_int key w =
  (match int_of_bytes s with
   | Some z => Ok (PInt z)
   | None => Raise ValueError
   end, log (Cmd (GET key)) w).
Proof.
  intros Hk. unfold Cache.get_int, Cache.get, bind. rewrite get_run, Hk.
  destruct (int_of_bytes s); reflexivity.
Qed.

(** What [Cache.store] wrote stays readable under the returned key. *)
Lemma store_keeps_value (w : world) (data : pyval) (b : string) (n : Z)
    (ins outs : list string) (t : Z) :
  let r := call Cache.store [data] w in
  list_at w "Cache.store:inputs" = Some ins ->
  list_at w "Cache.store:outputs" = Some outs ->
  counter w "Cache.store" = Some n -> n < Redis.LLONG_MAX ->
  Redis.encode data = Ok b ->
  fst r = Ok (PStr (next_key w)) /\
  lookup_live (at_time t (snd r)) (next_key w) = Some (Entry (RString b) None).
Proof.
  intros r Hin Hout Hc Hn Hb. subst r.
  rewrite (store_run w data b n ins outs) by assumption. cbn [fst snd].
  split; [reflexivity|].
  unfold lookup_live. cbn [db now at_time set_env].
  rewrite lookup_insert_ne by (apply not_eq_sym, next_key_not; discriminate).
  rewrite lookup_insert_eq. reflexivity.
Qed.



(** C10. Whatever the database held, right after [Cache()] it is empty:
    every key is absent at every later instant, so every counter reads zero
    (the next [INCR] answers 1), every list is empty and [get] returns
    [None]. *)
Theorem init_flushes_everything (w : world) (t : Z) (k : string) :
  let w' := snd (Cache.__init__ w) in
  fst (Cache.__init__ w) = Ok tt /\
  trace w' = trace w ++ [Cmd FLUSHDB] /\
  db w' = ∅ /\
  lookup_live (at_time t w') k = None /\
  counter (at_time t w') k = Some 0 /\
  fst (Redis.incr k (at_time t w')) = Ok 1 /\
  list_at (at_time t w') k = Some [] /\
  fst (Cache.get k None (at_time t w')) = Ok PNone.
Proof.
  intros w'. subst w'. rewrite init_run. cbn [fst snd].
  assert (lookup_live (at_time t (set_db ∅ (log (Cmd FLUSHDB) w))) k = None) as Hk.
  { unfold lookup_live. cbn [db at_time set_env set_db]. now rewrite lookup_empty. }
  split; [reflexivity|]. split; [reflexivity|]. split; [reflexivity|].
  split; [exact Hk|].
  assert (counter (at_time t (set_db ∅ (log (Cmd FLUSHDB) w))) k = Some 0) as Hc
    by (unfold counter; now rewrite Hk).
  split; [exact Hc|]. split.
  - rewrite (incr_run _ _ 0 Hc) by (unfold Redis.LLONG_MAX; lia). reflexivity.
  - split; [unfold list_at; now rewrite Hk|].
    unfold Cache.get, bind. rewrite get_run, Hk. reflexivity.
Qed.

End Layers.
End ExerciseFacts.

(** ** web.py: the access counter and the expiring page cache *)

Module WebFacts.
Import Py World Runtime View Web WorldFacts.

Section Pages.
Context `{Repr}.

Lemma requests_run (url : string) (w : world) :
  requests_get_text url w =
  (match internet w url with
   | Some body => Ok body
   | None => Raise RequestException
   end, log (Http url) w).
Proof.
  unfold requests_get_text, bind, emit. cbn [internet log].
  destruct (internet w url); reflexivity.
Qed.

(** A cached page that is not empty is decoded and returned. *)
Lemma cache_result_hit (expire : Z) (method : string -> M string) (url : string)
    (w : world) (c : ascii) (r : string) (ttl : option Z) :
  lookup_live w url = Some (Entry (RString (String c r)) ttl) ->
  cache_result expire method url w = decode (String c r) (log (Cmd (GET url)) w).
Proof.
  intros Hk. unfold cache_result, bind. rewrite get_run, Hk. reflexivity.
Qed.

(** No page at the key, or an empty one: the method is called and its result
    stored. *)
Lemma cache_result_miss (expire : Z) (method : string -> M string) (url : string)
    (w : world) :
  lookup_live w url = None \/
  (exists ttl, lookup_live w url = Some (Entry (RString "") ttl)) ->
  cache_result expire method url w =
  (result <- method url ;; Redis.setex url expire (PStr result) ;; ret result)
    (log (Cmd (GET url)) w).
Proof.
  intros [Hk | [ttl Hk]]; unfold cache_result;
    unfold bind at 1; rewrite get_run, Hk; reflexivity.
Qed.

Lemma cache_result_wrongtype (expire : Z) (method : string -> M string)
    (url : string) (w : world) (l : list string) (ttl : option Z) :
  lookup_live w url = Some (Entry (RList l) ttl) ->
  cache_result expire method url w = (Raise Redis.WRONGTYPE, log (Cmd (GET url)) w).
Proof.
  intros Hk. unfold cache_result, bind. rewrite get_run, Hk. reflexivity.
Qed.

Lemma count_url_access_run (method : string -> M string) (url : string)
    (w : world) (c : Z) :
  counter w ("count:" +:+ url) = Some c -> c < Redis.LLONG_MAX ->
  count_url_access method url w =
  method url
    (put ("count:" +:+ url)
         (Entry (RString (dec (c + 1))) (ttl_at w ("count:" +:+ url)))
         (log (Cmd (INCR ("count:" +:+ url))) w)).
Proof.
  intros Hc Hn. unfold count_url_access.
  erewrite bind_ok by (apply incr_run; eassumption). reflexivity.
Qed.

(** The cached fetch writes at the key [url] only. *)
Lemma cached_fetch_frame (url k : string) (w : world) :
  url <> k ->
  db (snd (cache_result 10 get_page_body url w)) !! k = db w !! k.
Proof.
  intros Hk.
  destruct (lookup_live w url) as [[[[|c r]|l] ttl]|] eqn:Hlive.
  - rewrite cache_result_miss by eauto.
    unfold get_page_body, bind. rewrite requests_run. cbn [internet log].
    destruct (internet w url) as [body|]; [|reflexivity].
    rewrite setex_run by lia. unfold ret. cbn [snd].
    autorewrite with fields. now rewrite lookup_insert_ne.
  - rewrite (cache_result_hit _ _ _ _ _ _ _ Hlive). unfold decode.
    destruct (utf8_valid _); reflexivity.
  - rewrite (cache_result_wrongtype _ _ _ _ _ _ Hlive). reflexivity.
  - rewrite cache_result_miss by eauto.
    unfold get_page_body, bind. rewrite requests_run. cbn [internet log].
    destruct (internet w url) as [body|]; [|reflexivity].
    rewrite setex_run by lia. unfold ret. cbn [snd].
    autorewrite with fields. now rewrite lookup_insert_ne.
Qed.

Lemma count_key_differs (url : string) : url <> "count:" +:+ url.
Proof. apply not_eq_sym, TextFacts.prefix_differs. discriminate. Qed.

Lemma lasting_counter_reads (w : world) (k : string) (c : Z) :
  lasting_counter w k c -> counter w k = Some c /\ ttl_at w k = None.
Proof.
  unfold lasting_counter, counter, ttl_at, lookup_live.
  destruct (db w !! k) as [[[s|l] [d|]]|]; try contradiction.
  - intros Hs. cbn [alive expire]. auto.
  - intros ->. auto.
Qed.

(** One call of [get_page] moves the counter of its URL by one. *)
Lemma get_page_counts_once (url : string) (w : world) (c : Z) :
  lasting_counter w ("count:" +:+ url) c -> c < Redis.LLONG_MAX ->
  lasting_counter (snd (get_page url w)) ("count:" +:+ url) (c + 1).
Proof.
  intros Hlast Hn. destruct (lasting_counter_reads _ _ _ Hlast) as (Hc & Httl).
  pose proof (counter_range _ _ _ Hc) as Hrange.
  unfold get_page. rewrite (count_url_access_run _ _ _ c Hc Hn), Httl.
  unfold lasting_counter.
  rewrite cached_fetch_frame by apply count_key_differs.
  autorewrite with fields. rewrite lookup_insert_eq.
  apply TextFacts.string2ll_dec. lia.
Qed.

(** C9. N calls of [get_page] for one URL, at any instants and whatever
    the network serves or the cache holds at each, leave the counter at
    ["count:" + url] N above where it was. *)
Theorem get_page_counts_every_call (url : string)
    (envs : list (Z * (string -> option string))) :
  forall (w : world) (c : Z),
  lasting_counter w ("count:" +:+ url) c ->
  c + Z.of_nat (length envs) <= Redis.LLONG_MAX ->
  counter (Script.visit get_page url envs w) ("count:" +:+ url)
  = Some (c + Z.of_nat (length envs)).
Proof.
  induction envs as [|[t net] rest IH]; intros w c Hlast Hmax.
  - simpl. rewrite Z.add_0_r. now apply lasting_counter_reads.
  - cbn [Script.visit length] in *.
    replace (c + Z.of_nat (S (length rest))) with (c + 1 + Z.of_nat (length rest)) by lia.
    apply IH; [|lia].
    apply get_page_counts_once; [exact Hlast | lia].
Qed.

(** A call that finds no page at the key fetches it and stores it for ten
    seconds. *)
Lemma get_page_miss (url body : string) (w : world) (c : Z) :
  counter w ("count:" +:+ url) = Some c -> c < Redis.LLONG_MAX ->
  lookup_live w url = None ->
  internet w url = Some body ->
  get_page url w =
  (Ok body,
   put url (Entry (RString body) (Some (now w + 10 * 1000)))
     (logs [Cmd (INCR ("count:" +:+ url)); Cmd (GET url); Http url;
            Cmd (SETEX url 10 body)]
        (put ("count:" +:+ url)
           (Entry (RString (dec (c + 1))) (ttl_at w ("count:" +:+ url))) w))).
Proof.
  intros Hc Hn Hk Hnet. unfold get_page.
  rewrite (count_url_access_run _ _ _ c Hc Hn).
  rewrite cache_result_miss
    by (left; rewrite lookup_live_put_ne by (apply not_eq_sym, count_key_differs);
        exact Hk).
  unfold get_page_body, bind. rewrite requests_run. cbn [internet log put set_db].
  rewrite Hnet. rewrite setex_run by lia. unfold ret.
  f_equal. apply world_eq; reflexivity || (cbn; now rewrite <- !app_assoc).
Qed.

(** A call that finds a page that is not empty returns it: no request goes
    out and nothing but the counter is written. *)
Lemma get_page_hit (url : string) (c0 : ascii) (r : string) (ttl : option Z)
    (w : world) (c : Z) :
  counter w ("count:" +:+ url) = Some c -> c < Redis.LLONG_MAX ->
  lookup_live w url = Some (Entry (RString (String c0 r)) ttl) ->
  utf8_valid (String c0 r) = true ->
  get_page url w =
  (Ok (String c0 r),
   logs [Cmd (INCR ("count:" +:+ url)); Cmd (GET url)]
     (put ("count:" +:+ url)
        (Entry (RString (dec (c + 1))) (ttl_at w ("count:" +:+ url))) w)).
Proof.
  intros Hc Hn Hk Hvalid. unfold get_page.
  rewrite (count_url_access_run _ _ _ c Hc Hn).
  erewrite cache_result_hit
    by (rewrite lookup_live_put_ne by (apply not_eq_sym, count_key_differs);
        exact Hk).
  rewrite decode_valid by exact Hvalid.
  f_equal. apply world_eq; reflexivity || (cbn; now rewrite <- !app_assoc).
Qed.

(** A call that finds an empty page stored at the key takes it for no page:
    the request goes out again and the page is stored again. *)
Lemma get_page_empty_cached (url body : string) (ttl : option Z) (w : world)
    (c : Z) :
  counter w ("count:" +:+ url) = Some c -> c < Redis.LLONG_MAX ->
  lookup_live w url = Some (Entry (RString "") ttl) ->
  internet w url = Some body ->
  get_page url w =
  (Ok body,
   put url (Entry (RString body) (Some (now w + 10 * 1000)))
     (logs [Cmd (INCR ("count:" +:+ url)); Cmd (GET url); Http url;
            Cmd (SETEX url 10 body)]
        (put ("count:" +:+ url)
           (Entry (RString (dec (c + 1))) (ttl_at w ("count:" +:+ url))) w))).
Proof.
  intros Hc Hn Hk Hnet. unfold get_page.
  rewrite (count_url_access_run _ _ _ c Hc Hn).
  rewrite cache_result_miss
    by (right; exists ttl;
        rewrite lookup_live_put_ne by (apply not_eq_sym, count_key_differs);
        exact Hk).
  unfold get_page_body, bind. rewrite requests_run. cbn [internet log put set_db].
  rewrite Hnet. rewrite setex_run by lia. unfold ret.
  f_equal. apply world_eq; reflexivity || (cbn; now rewrite <- !app_assoc).
Qed.


End Pages.
End WebFacts.

(** ** Worked instances

    Each theorem above that has premises is run here on the sample data of
    [Demo], its premises being checked by evaluation. *)

Module Worked.
Import Py World Runtime View Exercise WorldFacts Demo.

Lemma store_counts_and_records_witness :
  Script.call_all Cache.store three_calls (snd (Cache.__init__ fresh))
  = (Ok (map PStr three_keys), busy) /\
  (counter busy "Cache.store" = Some 3 /\
   list_at busy "Cache.store:inputs" = Some ["('a',)"; "('b',)"; "(3,)"] /\
   list_at busy "Cache.store:outputs" = Some three_keys /\
   length (map PStr three_keys) = length three_calls).
Proof.
  assert (Script.call_all Cache.store three_calls (snd (Cache.__init__ fresh))
          = (Ok (map PStr three_keys), busy)) as Hrun
    by (vm_compute; reflexivity).
  split; [exact Hrun|].
  exact (ExerciseFacts.store_counts_and_records fresh busy three_calls
           (map PStr three_keys) Hrun).
Defined.



Lemma replay_prints_history_witness :
  (list_at busy "Cache.store:inputs" = Some ["('a',)"; "('b',)"; "(3,)"] /\
   list_at busy "Cache.store:outputs" = Some three_keys /\
   Forall (fun i => utf8_valid i = true) ["('a',)"; "('b',)"; "(3,)"] /\
   Forall (fun o => utf8_valid o = true) three_keys) /\
  replay Cache.store busy =
    (Ok PNone,
     logs [Cmd (LRANGE "Cache.store:inputs" 0 (-1));
           Cmd (LRANGE "Cache.store:outputs" 0 (-1));
           Print "Cache.store was called 3 times:";
           Print "Cache.store(*('a',)) -> 00000000-0000-4000-8000-000000000000";
           Print "Cache.store(*('b',)) -> 00000000-0000-4000-9234-56789abcdef0";
           Print "Cache.store(*(3,)) -> 00000000-0000-4000-a468-acf13579bde0"]
       busy).
Proof.
  assert (list_at busy "Cache.store:inputs" = Some ["('a',)"; "('b',)"; "(3,)"])
    as H1 by (vm_compute; reflexivity).
  assert (list_at busy "Cache.store:outputs" = Some three_keys)
    as H2 by (vm_compute; reflexivity).
  assert (Forall (fun i => utf8_valid i = true) ["('a',)"; "('b',)"; "(3,)"])
    as H3 by (repeat constructor).
  assert (Forall (fun o => utf8_valid o = true) three_keys)
    as H4 by (repeat constructor).
  split; [auto|].
  exact (proj1 (ExerciseFacts.replay_prints_history Cache.store busy _ _ H1 H2 H3 H4)).
Defined.

Lemma get_missing_is_none_witness :
  lookup_live busy "no-such-key" = None /\
  Cache.get "no-such-key" (Some (fun _ => raise TypeError)) busy
    = (Ok PNone, log (Cmd (GET "no-such-key")) busy).
Proof.
  assert (lookup_live busy "no-such-key" = None) as H1 by (vm_compute; reflexivity).
  split; [exact H1|].
  exact (proj1 (ExerciseFacts.get_missing_is_none "no-such-key"
                  (Some (fun _ => raise TypeError)) busy H1)).
Defined.




Lemma get_page_counts_every_call_witness :
  (lasting_counter fresh ("count:" +:+ hello_page) 0 /\
   0 + Z.of_nat (length [(0, site); (3000, site); (20000, site)]) <= Redis.LLONG_MAX) /\
  counter (Script.visit Web.get_page hello_page
             [(0, site); (3000, site); (20000, site)] fresh)
          ("count:" +:+ hello_page) = Some 3.
Proof.
  assert (lasting_counter fresh ("count:" +:+ hello_page) 0) as H1 by reflexivity.
  assert (0 + Z.of_nat (length [(0, site); (3000, site); (20000, site)])
          <= Redis.LLONG_MAX) as H2 by (vm_compute; discriminate).
  split; [auto|].
  exact (WebFacts.get_page_counts_every_call hello_page
           [(0, site); (3000, site); (20000, site)] fresh 0 H1 H2).
Defined.

(** C1. The cache does not hold for a page whose body is empty: one second
    after [get_page] fetched and stored such a page, with the stored record
    nine seconds from its deadline, a second [get_page] sends the request
    again and stores the page again. *)
Theorem get_page_empty_page_fetched_again :
  let w1 := snd (Web.get_page empty_page fresh) in
  let w2 := snd (Web.get_page empty_page (at_time 1000 w1)) in
  lookup_live (at_time 1000 w1) empty_page = Some (Entry (RString "") (Some 10000)) /\
  trace w2 =
    [Cmd (INCR "count:http://empty.example"); Cmd (GET empty_page);
     Http empty_page; Cmd (SETEX empty_page 10 "");
     Cmd (INCR "count:http://empty.example"); Cmd (GET empty_page);
     Http empty_page; Cmd (SETEX empty_page 10 "")].
Proof. vm_compute. split; reflexivity. Qed.

End Worked.

(** ** Which keys the commands write *)

Module FrameFacts.
Import Py World Runtime View WorldFacts.

Lemma bind_other {A B} (m : M A) (f : A -> M B) (k : string) (w : world) :
  db (snd (m w)) !! k = db w !! k ->
  (forall a w1, m w = (Ok a, w1) -> db (snd (f a w1)) !! k = db w1 !! k) ->
  db (snd (bind m f w)) !! k = db w !! k.
Proof.
  intros Hm Hf. unfold bind.
  destruct (m w) as [[a|e] w1] eqn:E; cbn [snd] in *; [|exact Hm].
  now rewrite (Hf a w1 eq_refl).
Qed.

Lemma bind_same {A B} (m : M A) (f : A -> M B) (w : world) :
  db (snd (m w)) = db w ->
  (forall a w1, m w = (Ok a, w1) -> db (snd (f a w1)) = db w1) ->
  db (snd (bind m f w)) = db w.
Proof.
  intros Hm Hf. unfold bind.
  destruct (m w) as [[a|e] w1] eqn:E; cbn [snd] in *; [|exact Hm].
  now rewrite (Hf a w1 eq_refl).
Qed.

(** No command moves the clock, the network or the random source. *)
Lemma bind_env {A B} (m : M A) (f : A -> M B) (w : world) :
  (now (snd (m w)) = now w /\ next_key (snd (m w)) = next_key w) ->
  (forall a w1, m w = (Ok a, w1) ->
     now (snd (f a w1)) = now w1 /\ next_key (snd (f a w1)) = next_key w1) ->
  now (snd (bind m f w)) = now w /\ next_key (snd (bind m f w)) = next_key w.
Proof.
  intros Hm Hf. unfold bind.
  destruct (m w) as [[a|e] w1] eqn:E; cbn [snd] in *; [|exact Hm].
  destruct (Hf a w1 eq_refl) as (-> & ->). exact Hm.
Qed.

Lemma bind_now {A B} (m : M A) (f : A -> M B) (w : world) :
  now (snd (m w)) = now w ->
  (forall a w1, m w = (Ok a, w1) -> now (snd (f a w1)) = now w1) ->
  now (snd (bind m f w)) = now w.
Proof.
  intros Hm Hf. unfold bind.
  destruct (m w) as [[a|e] w1] eqn:E; cbn [snd] in *; [|exact Hm].
  now rewrite (Hf a w1 eq_refl).
Qed.

Section Commands.
Context `{Repr}.

Ltac run_server :=
  unfold Redis.get, Redis.set, Redis.setex, Redis.incr, Redis.rpush, Redis.lrange,
    Redis.server_get, Redis.server_set, Redis.server_setex, Redis.server_incr,
    Redis.server_rpush, Redis.server_lrange, bind, emit, lift;
  repeat match goal with
         | |- context [Redis.encode ?v] => destruct (Redis.encode v)
         | |- context [lookup_live ?w ?k] => destruct (lookup_live w k) as [[[?|?] ?]|]
         | |- context [Redis.string2ll ?s] => destruct (Redis.string2ll s)
         | |- context [Z.leb ?a ?b] => destruct (Z.leb a b)
         end;
  cbn [snd fst].

Lemma incr_other (key k : string) (w : world) :
  key <> k -> db (snd (Redis.incr key w)) !! k = db w !! k.
Proof.
  intros Hk. run_server; autorewrite with fields;
    rewrite ?lookup_insert_ne by exact Hk; reflexivity.
Qed.

Lemma rpush_other (key k : string) (v : pyval) (w : world) :
  key <> k -> db (snd (Redis.rpush key v w)) !! k = db w !! k.
Proof.
  intros Hk. run_server; autorewrite with fields;
    rewrite ?lookup_insert_ne by exact Hk; reflexivity.
Qed.

Lemma set_other (key k : string) (v : pyval) (w : world) :
  key <> k -> db (snd (Redis.set key v w)) !! k = db w !! k.
Proof.
  intros Hk. run_server; autorewrite with fields;
    rewrite ?lookup_insert_ne by exact Hk; reflexivity.
Qed.

Lemma setex_other (key k : string) (seconds : Z) (v : pyval) (w : world) :
  key <> k -> db (snd (Redis.setex key seconds v w)) !! k = db w !! k.
Proof.
  intros Hk. run_server; autorewrite with fields;
    rewrite ?lookup_insert_ne by exact Hk; reflexivity.
Qed.

Lemma get_same (key : string) (w : world) : db (snd (Redis.get key w)) = db w.
Proof. run_server; reflexivity. Qed.

Lemma lrange_same (key : string) (start stop : Z) (w : world) :
  db (snd (Redis.lrange key start stop w)) = db w.
Proof. run_server; reflexivity. Qed.

Lemma incr_env (key : string) (w : world) :
  now (snd (Redis.incr key w)) = now w /\
  next_key (snd (Redis.incr key w)) = next_key w.
Proof. run_server; split; reflexivity. Qed.

Lemma rpush_env (key : string) (v : pyval) (w : world) :
  now (snd (Redis.rpush key v w)) = now w /\
  next_key (snd (Redis.rpush key v w)) = next_key w.
Proof. run_server; split; reflexivity. Qed.

Lemma set_env_same (key : string) (v : pyval) (w : world) :
  now (snd (Redis.set key v w)) = now w.
Proof. run_server; reflexivity. Qed.

Lemma get_env (key : string) (w : world) :
  now (snd (Redis.get key w)) = now w.
Proof. run_server; reflexivity. Qed.

End Commands.
End FrameFacts.

(** ** exercise.py: further properties *)

Module ExerciseMore.
Import Py World Runtime View Exercise WorldFacts FrameFacts.

Section More.
Context `{Repr}.

Lemma store_body_other (args : list pyval) (w : world) (k : string) :
  k <> next_key w ->
  db (snd (call Cache.store_body args w)) !! k = db w !! k.
Proof.
  intros Hk. cbn [call Cache.store_body].
  destruct args as [|data [|x rest]]; try reflexivity.
  apply bind_other; [reflexivity|].
  intros u w1 Hu. injection Hu as <- <-.
  apply bind_other; [|reflexivity].
  rewrite set_other by (apply not_eq_sym; exact Hk). reflexivity.
Qed.

Lemma store_body_now (args : list pyval) (w : world) :
  now (snd (call Cache.store_body args w)) = now w.
Proof.
  cbn [call Cache.store_body].
  destruct args as [|data [|x rest]]; try reflexivity.
  apply bind_now; [reflexivity|].
  intros u w1 Hu. injection Hu as <- <-.
  apply bind_now; [apply set_env_same | reflexivity].
Qed.

Lemma store_other (args : list pyval) (w : world) (k : string) :
  k <> "Cache.store" -> k <> "Cache.store:inputs" ->
  k <> "Cache.store:outputs" -> k <> next_key w ->
  db (snd (call Cache.store args w)) !! k = db w !! k.
Proof.
  intros Kc Ki Ko Kn. unfold Cache.store.
  cbn [call call_history count_calls qualname Cache.store_body].
  change ("Cache.store" +:+ ":inputs") with "Cache.store:inputs".
  change ("Cache.store" +:+ ":outputs") with "Cache.store:outputs".
  apply bind_other; [apply rpush_other, not_eq_sym, Ki|].
  intros a w1 H1.
  destruct (rpush_env "Cache.store:inputs" (PStr (str_tuple args)) w) as (_ & E1).
  rewrite H1 in E1. cbn [snd] in E1.
  apply bind_other.
  - apply bind_other; [apply incr_other, not_eq_sym, Kc|].
    intros n w2 H2.
    destruct (incr_env "Cache.store" w1) as (_ & E2).
    rewrite H2 in E2. cbn [snd] in E2.
    apply (store_body_other args w2 k). rewrite E2, E1. exact Kn.
  - intros result w3 H3.
    apply bind_other; [apply rpush_other, not_eq_sym, Ko | reflexivity].
Qed.

Lemma store_now (args : list pyval) (w : world) :
  now (snd (call Cache.store args w)) = now w.
Proof.
  unfold Cache.store.
  cbn [call call_history count_calls qualname Cache.store_body].
  apply bind_now; [apply rpush_env|].
  intros a w1 _. apply bind_now.
  - apply bind_now; [apply incr_env|].
    intros n w2 _. apply store_body_now.
  - intros result w3 _. apply bind_now; [apply rpush_env | reflexivity].
Qed.

(** X1. Whatever its arguments and whatever the database holds, a call of
    [Cache.store] writes at four keys at most: the counter, the two history
    lists and the key it draws.  Every other record is as before, so [get] on
    it answers as before. *)
Theorem store_leaves_other_records (args : list pyval) (w : world) (k : string) :
  k <> "Cache.store" -> k <> "Cache.store:inputs" ->
  k <> "Cache.store:outputs" -> k <> next_key w ->
  db (snd (call Cache.store args w)) !! k = db w !! k /\
  fst (Cache.get k None (snd (call Cache.store args w))) = fst (Cache.get k None w).
Proof.
  intros Kc Ki Ko Kn.
  pose proof (store_other args w k Kc Ki Ko Kn) as Hdb.
  pose proof (store_now args w) as Hnow.
  split; [exact Hdb|].
  unfold Cache.get, bind. rewrite !get_run. cbn [fst snd].
  unfold lookup_live. rewrite Hdb, Hnow.
  destruct (db w !! k) as [[[b|l] ttl]|]; [| |reflexivity];
    destruct (alive _ _); reflexivity.
Qed.

(** X2. A call of [Cache.store] that returns was given exactly one value
    that the client can send; what it returns is the key it drew, a string of
    36 characters that is none of the three bookkeeping keys; and the record
    under that key holds the encoded value, with no time to live. *)
Theorem store_returns_its_key (w w' : world) (args : list pyval) (r : pyval)
    (n : Z) (ins outs : list string) :
  list_at w "Cache.store:inputs" = Some ins ->
  list_at w "Cache.store:outputs" = Some outs ->
  counter w "Cache.store" = Some n ->
  call Cache.store args w = (Ok r, w') ->
  r = PStr (next_key w) /\
  String.length (next_key w) = 36%nat /\
  next_key w <> "Cache.store" /\
  next_key w <> "Cache.store:inputs" /\
  next_key w <> "Cache.store:outputs" /\
  exists data b,
    args = [data] /\ Redis.encode data = Ok b /\
    db w' !! next_key w = Some (Entry (RString b) None).
Proof.
  intros Hin Hout Hc Hrun.
  destruct (ExerciseFacts.store_ok_inv _ _ _ _ _ _ _ Hin Hout Hc Hrun)
    as (Hn & data & b & -> & Hb).
  rewrite (ExerciseFacts.store_run w data b n ins outs Hin Hout Hc Hn Hb) in Hrun.
  injection Hrun as <- <-.
  split; [reflexivity|]. split; [apply TextFacts.length_uuid_str|].
  split; [apply next_key_not; discriminate|].
  split; [apply next_key_not; discriminate|].
  split; [apply next_key_not; discriminate|].
  exists data, b. split; [reflexivity|]. split; [exact Hb|].
  cbn [db].
  rewrite lookup_insert_ne by (apply not_eq_sym, next_key_not; discriminate).
  apply lookup_insert_eq.
Qed.

Lemma get_str_run (key s : string) (ttl : option Z) (w : world) :
  lookup_live w key = Some (Entry (RString s) ttl) ->
  Cache.get_str key w =
  (if utf8_valid s then Ok (PStr s) else Raise UnicodeDecodeError,
   log (Cmd (GET key)) w).
Proof.
  intros Hk. unfold Cache.get_str, Cache.get, bind. rewrite get_run, Hk.
  unfold decode. destruct (utf8_valid s); reflexivity.
Qed.

(** X3. [get_str] gives back any string that [store] was given, also
    later on; on stored bytes that are not UTF-8 it raises
    [UnicodeDecodeError] after its one [GET], the database being as
    before. *)
Theorem get_str_round_trip (w : world) (s : string) (n : Z)
    (ins outs : list string) (t : Z) (w2 : world) (key b : string)
    (ttl : option Z) :
  let r := call Cache.store [PStr s] w in
  list_at w "Cache.store:inputs" = Some ins ->
  list_at w "Cache.store:outputs" = Some outs ->
  counter w "Cache.store" = Some n -> n < Redis.LLONG_MAX ->
  utf8_valid s = true ->
  lookup_live w2 key = Some (Entry (RString b) ttl) ->
  utf8_valid b = false ->
  Cache.get_str (next_key w) (at_time t (snd r)) =
    (Ok (PStr s), log (Cmd (GET (next_key w))) (at_time t (snd r))) /\
  Cache.get_str key w2 = (Raise UnicodeDecodeError, log (Cmd (GET key)) w2).
Proof.
  intros r Hin Hout Hc Hn Hs Hk Hb.
  destruct (ExerciseFacts.store_keeps_value w (PStr s) s n ins outs t
              Hin Hout Hc Hn eq_refl) as (_ & Hlive).
  fold r in Hlive. split.
  - rewrite (get_str_run _ _ _ _ Hlive), Hs. reflexivity.
  - rewrite (get_str_run _ _ _ _ Hk), Hb. reflexivity.
Qed.

(** X4. On a key that holds a list, such as the history lists themselves,
    [get] does not return [None]: the server refuses the [GET] and the error
    comes out of [get], [get_str] and [get_int] alike, whatever the
    converter. *)
Theorem get_on_a_list_raises (key : string) (l : list string) (ttl : option Z)
    (fn : option (string -> M pyval)) (w : world) :
  lookup_live w key = Some (Entry (RList l) ttl) ->
  Cache.get key fn w = (Raise Redis.WRONGTYPE, log (Cmd (GET key)) w) /\
  Cache.get_str key w = (Raise Redis.WRONGTYPE, log (Cmd (GET key)) w) /\
  Cache.get_int key w = (Raise Redis.WRONGTYPE, log (Cmd (GET key)) w).
Proof.
  intros Hk.
  assert (forall fn, Cache.get key fn w = (Raise Redis.WRONGTYPE, log (Cmd (GET key)) w))
    as Hget.
  { intros fn'. unfold Cache.get, bind. rewrite get_run, Hk. reflexivity. }
  split; [apply Hget|]. split; apply Hget.
Qed.

(** X5. After a new [Cache] and N >= 1 calls of [store] that all return,
    the number of calls can be read back under the method's qualified name:
    [get] returns its decimal numeral as bytes and [get_int] the integer N,
    at any later instant. *)
Theorem store_count_reads_back (w0 w' : world) (calls : list (Z * list pyval))
    (keys : list pyval) (t : Z) :
  calls <> [] ->
  Script.call_all Cache.store calls (snd (Cache.__init__ w0)) = (Ok keys, w') ->
  fst (Cache.get "Cache.store" None (at_time t w'))
    = Ok (PBytes (dec (Z.of_nat (length calls)))) /\
  fst (Cache.get_int "Cache.store" (at_time t w'))
    = Ok (PInt (Z.of_nat (length calls))).
Proof.
  intros Hne Hrun.
  assert (history_state (snd (Cache.__init__ w0)) "Cache.store" 0 [] []) as Hst
    by (apply ExerciseFacts.history_state_empty; reflexivity).
  destruct (ExerciseFacts.call_all_history _ _ _ _ _ _ _ Hst Hrun) as ((_ & Hc & _) & _).
  assert (lookup_live (at_time t w') "Cache.store"
          = Some (Entry (RString (dec (Z.of_nat (length calls)))) None)) as Hlive.
  { rewrite Z.add_0_l in Hc.
    unfold lookup_live. cbn [db at_time set_env]. rewrite Hc.
    unfold counter_record.
    destruct (Z.of_nat (length calls) =? 0) eqn:E; [|reflexivity].
    apply Z.eqb_eq in E. destruct calls; [congruence | discriminate E]. }
  split.
  - now rewrite (ExerciseFacts.get_plain_run _ _ _ _ Hlive).
  - rewrite (ExerciseFacts.get_int_run _ _ _ _ Hlive), TextFacts.int_of_bytes_dec.
    reflexivity.
Qed.

Lemma replay_lines_same (name : string) (pairs : list (string * string)) :
  forall w : world, db (snd (replay_lines name pairs w)) = db w.
Proof.
  induction pairs as [|[i o] rest IH]; intros w; [reflexivity|].
  cbn [replay_lines]. unfold decode.
  destruct (utf8_valid i); [|reflexivity].
  destruct (utf8_valid o); [|reflexivity].
  unfold bind at 1. unfold ret at 1. unfold bind at 1. unfold ret at 1.
  unfold bind at 1. unfold print, emit. rewrite IH. reflexivity.
Qed.

(** X6. The readers never write: whatever the database holds and whether
    they return or raise, [get] without converter, [get_str], [get_int] and
    [replay] leave every record as it was. *)
Theorem readers_leave_the_database (key : string) (method : callable) (w : world) :
  db (snd (Cache.get key None w)) = db w /\
  db (snd (Cache.get_str key w)) = db w /\
  db (snd (Cache.get_int key w)) = db w /\
  db (snd (replay method w)) = db w.
Proof.
  split; [|split; [|split]].
  - unfold Cache.get. apply bind_same; [apply get_same|].
    intros [b|] w1 _; reflexivity.
  - unfold Cache.get_str, Cache.get. apply bind_same; [apply get_same|].
    intros [b|] w1 _; [|reflexivity].
    unfold decode. destruct (utf8_valid b); reflexivity.
  - unfold Cache.get_int, Cache.get. apply bind_same; [apply get_same|].
    intros [b|] w1 _; [|reflexivity].
    destruct (int_of_bytes b); reflexivity.
  - unfold replay. apply bind_same; [apply lrange_same|].
    intros inputs w1 _. apply bind_same; [apply lrange_same|].
    intros outputs w2 _. apply bind_same; [reflexivity|].
    intros [] w3 _. apply bind_same; [apply replay_lines_same | reflexivity].
Qed.

(** X7. When the server refuses the [INCR] of [count_calls] (the key holds
    a list or a text that is no integer, or the counter is at its maximum),
    the error comes out of the wrapper and the wrapped method is not called:
    the world is the one right after the [INCR] was sent. *)
Theorem count_calls_refused_skips_method (method : callable) (args : list pyval)
    (w : world) :
  counter w (qualname method) = None \/
  (exists n, counter w (qualname method) = Some n /\ Redis.LLONG_MAX <= n) ->
  snd (call (count_calls method) args w) = log (Cmd (INCR (qualname method))) w /\
  exists e, fst (call (count_calls method) args w) = Raise e.
Proof.
  intros [Hc | (n & Hc & Hn)].
  - cbn [call count_calls]. unfold Redis.incr, Redis.server_incr, bind, emit.
    unfold counter in Hc.
    change (lookup_live (log (Cmd (INCR (qualname method))) w) (qualname method))
      with (lookup_live w (qualname method)).
    destruct (lookup_live w (qualname method)) as [[[s|l] ttl]|]; [| |discriminate];
      cbv beta iota zeta.
    + rewrite Hc. split; [reflexivity | eexists; reflexivity].
    + split; [reflexivity | eexists; reflexivity].
  - rewrite (ExerciseFacts.count_calls_overflow _ _ _ n Hc Hn).
    split; [reflexivity | eexists; reflexivity].
Qed.


Lemma replay_run (method : callable) (w : world) (ins outs : list string) :
  list_at w (qualname method +:+ ":inputs") = Some ins ->
  list_at w (qualname method +:+ ":outputs") = Some outs ->
  Forall (fun p => utf8_valid (fst p) = true /\ utf8_valid (snd p) = true)
         (zip ins outs) ->
  replay method w =
    (Ok PNone,
     logs ([Cmd (LRANGE (qualname method +:+ ":inputs") 0 (-1));
            Cmd (LRANGE (qualname method +:+ ":outputs") 0 (-1));
            Print (qualname method +:+ " was called "
                   +:+ dec (Z.of_nat (length ins)) +:+ " times:")]
           ++ map (replay_line (qualname method)) (zip ins outs)) w).
Proof.
  intros Hin Hout Hvalid. unfold replay.
  rewrite (bind_ok _ _ _ _ _ (lrange_all _ w ins Hin)).
  rewrite (bind_ok _ _ _ _ _ (lrange_all _ (log _ w) outs Hout)).
  unfold print at 1. erewrite bind_ok by reflexivity.
  rewrite (bind_ok _ _ _ _ _ (ExerciseFacts.replay_lines_run _ _ _ Hvalid)).
  unfold ret. rewrite !log_logs, !logs_logs. reflexivity.
Qed.

Lemma replay_lines_stop (name : string) (good : list (string * string))
    (i o : string) (rest : list (string * string)) :
  forall w : world,
  Forall (fun p => utf8_valid (fst p) = true /\ utf8_valid (snd p) = true) good ->
  utf8_valid i = false \/ utf8_valid o = false ->
  replay_lines name (good ++ (i, o) :: rest) w
  = (Raise UnicodeDecodeError, logs (map (replay_line name) good) w).
Proof.
  induction good as [|[i' o'] good IH]; intros w Hgood Hbad.
  - cbn [app replay_lines map]. unfold bind, decode.
    replace (logs [] w) with w by (unfold logs; rewrite app_nil_r; now destruct w).
    destruct Hbad as [-> | Ho]; [reflexivity|].
    destruct (utf8_valid i); [|reflexivity]. unfold ret. now rewrite Ho.
  - inversion Hgood as [|? ? [Hi Ho] Hrest]; subst.
    cbn [app replay_lines map].
    rewrite (bind_ok _ _ _ _ _ (decode_valid i' w Hi)).
    rewrite (bind_ok _ _ _ _ _ (decode_valid o' w Ho)).
    unfold print. rewrite (bind_ok _ _ w (log (replay_line name (i', o')) w) tt)
      by reflexivity.
    rewrite IH by assumption. rewrite log_logs, logs_logs. reflexivity.
Qed.

(** X9. [replay] on a history that holds bytes which are not UTF-8 prints
    the header and the lines of the pairs before the first such pair, then
    raises [UnicodeDecodeError]; the remaining pairs are not printed. *)
Theorem replay_stops_at_undecodable (method : callable) (w : world)
    (ins outs : list string) (good rest : list (string * string)) (i o : string) :
  let name := qualname method in
  list_at w (name +:+ ":inputs") = Some ins ->
  list_at w (name +:+ ":outputs") = Some outs ->
  zip ins outs = good ++ (i, o) :: rest ->
  Forall (fun p => utf8_valid (fst p) = true /\ utf8_valid (snd p) = true) good ->
  utf8_valid i = false \/ utf8_valid o = false ->
  replay method w =
    (Raise UnicodeDecodeError,
     logs ([Cmd (LRANGE (name +:+ ":inputs") 0 (-1));
            Cmd (LRANGE (name +:+ ":outputs") 0 (-1));
            Print (name +:+ " was called " +:+ dec (Z.of_nat (length ins)) +:+ " times:")]
           ++ map (replay_line name) good) w).
Proof.
  intros name Hin Hout Hzip Hgood Hbad. unfold replay. fold name.
  rewrite (bind_ok _ _ _ _ _ (lrange_all _ w ins Hin)).
  rewrite (bind_ok _ _ _ _ _ (lrange_all _ (log _ w) outs Hout)).
  unfold print at 1. erewrite bind_ok by reflexivity.
  rewrite Hzip.
  rewrite (bind_raise _ _ _ _ _ (replay_lines_stop name good i o rest _ Hgood Hbad)).
  rewrite !log_logs, !logs_logs. reflexivity.
Qed.

(** X10. A call of [Cache.store] that the client refuses is counted by
    [replay] but not listed: with as many inputs as outputs before it,
    [replay] afterwards reports one call more than it prints lines. *)
Theorem replay_after_refused_store (w : world) (data : pyval) (e : exn) (n : Z)
    (ins outs : list string) :
  let w1 := snd (call Cache.store [data] w) in
  list_at w "Cache.store:inputs" = Some ins ->
  list_at w "Cache.store:outputs" = Some outs ->
  counter w "Cache.store" = Some n -> n < Redis.LLONG_MAX ->
  Redis.encode data = Raise e ->
  length ins = length outs ->
  Forall (fun i => utf8_valid i = true) ins ->
  Forall (fun o => utf8_valid o = true) outs ->
  fst (call Cache.store [data] w) = Raise e /\
  replay Cache.store w1 =
    (Ok PNone,
     logs ([Cmd (LRANGE "Cache.store:inputs" 0 (-1));
            Cmd (LRANGE "Cache.store:outputs" 0 (-1));
            Print ("Cache.store was called "
                   +:+ dec (Z.of_nat (length ins) + 1) +:+ " times:")]
           ++ map (replay_line "Cache.store") (zip ins outs)) w1) /\
  length (zip ins outs) = length ins.
Proof.
  intros w1 Hin Hout Hc Hn Hb Hlen Vin Vout. subst w1.
  rewrite (ExerciseFacts.store_refused w data e n ins Hin Hc Hn Hb). cbn [fst snd].
  split; [reflexivity|].
  set (w1 := draw _).
  assert (list_at w1 "Cache.store:inputs" = Some (ins ++ [str_tuple [data]])) as Hin1.
  { subst w1. autorewrite with views.
    apply (list_at_rewrite (log _ w)). }
  assert (list_at w1 "Cache.store:outputs" = Some outs) as Hout1
    by (subst w1; autorewrite with views; exact Hout).
  assert (zip (ins ++ [str_tuple [data]]) outs = zip ins outs) as Hzip.
  { rewrite <- (app_nil_r outs) at 1.
    rewrite zip_with_app by exact Hlen. apply app_nil_r. }
  split.
  - rewrite (replay_run Cache.store w1 _ outs Hin1 Hout1)
      by (rewrite Hzip; now apply ExerciseFacts.Forall_zip_valid).
    rewrite Hzip, length_app, Nat2Z.inj_add. reflexivity.
  - rewrite length_zip_with. lia.
Qed.

Lemma hex_digit_ascii (n : N) : byte_in 0 127 (hex_digit n) = true.
Proof.
  destruct n as [|p]; [reflexivity|].
  do 4 (try (destruct p as [p|p|])); reflexivity.
Qed.

Lemma utf8_valid_ascii (c : ascii) (r : string) :
  byte_in 0 127 c = true -> utf8_valid (String c r) = utf8_valid r.
Proof. intros Hc. cbn [utf8_valid]. now rewrite Hc. Qed.

Lemma utf8_valid_hex_field (u : N) (pos len : nat) (r : string) :
  utf8_valid r = true -> utf8_valid (hex_field u pos len +:+ r) = true.
Proof.
  intros Hr. induction len as [|l IH]; [exact Hr|].
  cbn [hex_field].
  change (String ?c ?x +:+ r) with (String c (x +:+ r)).
  now rewrite utf8_valid_ascii by apply hex_digit_ascii.
Qed.

Lemma utf8_valid_hex (u : N) (pos len : nat) :
  utf8_valid (hex_field u pos len) = true.
Proof.
  induction len as [|l IH]; [reflexivity|].
  cbn [hex_field]. now rewrite utf8_valid_ascii by apply hex_digit_ascii.
Qed.

(** The text of a UUID is ASCII. *)
Lemma utf8_valid_uuid_str (u : N) : utf8_valid (uuid_str u) = true.
Proof.
  unfold uuid_str.
  do 4 (apply utf8_valid_hex_field;
        change ("-" +:+ ?x) with (String "-" x);
        rewrite utf8_valid_ascii by reflexivity).
  apply utf8_valid_hex.
Qed.

Lemma call_all_keys (calls : list (Z * list pyval)) :
  forall (w w' : world) (keys : list pyval) (n : Z) (ins outs : list string),
  history_state w "Cache.store" n ins outs ->
  Script.call_all Cache.store calls w = (Ok keys, w') ->
  Forall (fun o => utf8_valid o = true) (map str keys).
Proof.
  induction calls as [|[t args] rest IH]; intros w w' keys n ins outs Hst Hrun.
  - injection Hrun as <- <-. constructor.
  - cbn [Script.call_all] in Hrun. unfold bind at 1 in Hrun.
    destruct (call Cache.store args (at_time t w)) as [[r|e] w1] eqn:Hcall;
      [|discriminate Hrun].
    unfold bind at 1 in Hrun.
    destruct (Script.call_all Cache.store rest w1) as [[rs|e] w2] eqn:Hrest;
      [|discriminate Hrun].
    injection Hrun as <- <-.
    pose proof (ExerciseFacts.store_step _ _ _ _ _ _ _ _ Hst Hcall) as Hst1.
    assert (history_state (at_time t w) "Cache.store" n ins outs) as Hst' by exact Hst.
    destruct (ExerciseFacts.history_state_views _ _ _ _ _ Hst') as (Hc & Hi & Ho & _).
    change ("Cache.store" +:+ ":inputs") with "Cache.store:inputs" in Hi.
    change ("Cache.store" +:+ ":outputs") with "Cache.store:outputs" in Ho.
    destruct (ExerciseFacts.store_ok_inv _ _ _ _ _ _ _ Hi Ho Hc Hcall)
      as (Hn & data & b & -> & Hb).
    rewrite (ExerciseFacts.store_run _ data b n ins outs Hi Ho Hc Hn Hb) in Hcall.
    injection Hcall as <- _.
    cbn [map str]. constructor; [apply utf8_valid_uuid_str|].
    exact (IH _ _ _ _ _ _ Hst1 Hrest).
Qed.

(** X11. After a new [Cache] and N calls of [store] that all return,
    [replay], at any later instant, returns after printing the header with
    the count N and then N lines, the i-th pairing the text of the i-th
    call's arguments with the key that call returned (the recorded argument
    texts being UTF-8, as the text of a [str] is). *)
Theorem replay_after_stores (w0 w' : world) (calls : list (Z * list pyval))
    (keys : list pyval) (t : Z) :
  Script.call_all Cache.store calls (snd (Cache.__init__ w0)) = (Ok keys, w') ->
  Forall (fun c => utf8_valid (str_tuple (snd c)) = true) calls ->
  replay Cache.store (at_time t w') =
    (Ok PNone,
     logs ([Cmd (LRANGE "Cache.store:inputs" 0 (-1));
            Cmd (LRANGE "Cache.store:outputs" 0 (-1));
            Print ("Cache.store was called "
                   +:+ dec (Z.of_nat (length calls)) +:+ " times:")]
           ++ map (replay_line "Cache.store")
                (zip (map (fun c => str_tuple (snd c)) calls) (map str keys)))
       (at_time t w')) /\
  length (zip (map (fun c => str_tuple (snd c)) calls) (map str keys))
    = length calls.
Proof.
  intros Hrun Hvalid.
  assert (history_state (snd (Cache.__init__ w0)) "Cache.store" 0 [] []) as Hst
    by (apply ExerciseFacts.history_state_empty; reflexivity).
  pose proof (call_all_keys _ _ _ _ _ _ _ Hst Hrun) as Hkeys.
  destruct (ExerciseFacts.call_all_history _ _ _ _ _ _ _ Hst Hrun) as (Hst' & Hlen).
  assert (history_state (at_time t w') "Cache.store"
            (0 + Z.of_nat (length calls))
            ([] ++ map (fun c => str_tuple (snd c)) calls) ([] ++ map str keys))
    as Hst'' by exact Hst'.
  destruct (ExerciseFacts.history_state_views _ _ _ _ _ Hst'') as (_ & Hi & Ho & _).
  cbn [app] in Hi, Ho.
  split.
  - rewrite (replay_run Cache.store (at_time t w') _ _ Hi Ho).
    + rewrite length_map. reflexivity.
    + apply ExerciseFacts.Forall_zip_valid; [|exact Hkeys].
      apply Forall_map. exact Hvalid.
  - rewrite length_zip_with, !length_map. lia.
Qed.

End More.
End ExerciseMore.

(** ** web.py: further properties *)

Module WebMore.
Import Py World Runtime View Web WorldFacts FrameFacts.

Section More.
Context `{Repr}.

Lemma cached_fetch_now (expire : Z) (url : string) (w : world) :
  now (snd (cache_result expire get_page_body url w)) = now w.
Proof.
  unfold cache_result. apply bind_now; [apply get_env|].
  intros cached w1 _.
  assert (now (snd ((result <- get_page_body url ;;
                     Redis.setex url expire (PStr result) ;; ret result) w1)) = now w1)
    as Hmiss.
  { apply bind_now.
    - unfold get_page_body. rewrite WebFacts.requests_run. reflexivity.
    - intros result w2 _. apply bind_now; [|reflexivity].
      unfold Redis.setex, Redis.server_setex, bind, emit, lift. cbn [Redis.encode].
      destruct (expire <=? 0); reflexivity. }
  destruct cached as [[|c r]|]; [exact Hmiss | | exact Hmiss].
  unfold decode. destruct (utf8_valid _); reflexivity.
Qed.


(** X13. When the request fails, [get_page] raises the failure after
    counting the access and stores nothing: the key [url] is still absent,
    so the next call sends the request again. *)
Theorem get_page_failed_fetch (url : string) (w : world) (c : Z) :
  counter w ("count:" +:+ url) = Some c -> c < Redis.LLONG_MAX ->
  lookup_live w url = None ->
  internet w url = None ->
  get_page url w =
    (Raise RequestException,
     logs [Cmd (INCR ("count:" +:+ url)); Cmd (GET url); Http url]
       (put ("count:" +:+ url)
          (Entry (RString (dec (c + 1))) (ttl_at w ("count:" +:+ url))) w)) /\
  lookup_live (snd (get_page url w)) url = None.
Proof.
  intros Hc Hn Hk Hnet.
  assert (get_page url w =
    (Raise RequestException,
     logs [Cmd (INCR ("count:" +:+ url)); Cmd (GET url); Http url]
       (put ("count:" +:+ url)
          (Entry (RString (dec (c + 1))) (ttl_at w ("count:" +:+ url))) w))) as Hrun.
  { unfold get_page.
    rewrite (WebFacts.count_url_access_run _ _ _ c Hc Hn).
    rewrite WebFacts.cache_result_miss
      by (left; rewrite lookup_live_put_ne
            by (apply not_eq_sym, WebFacts.count_key_differs); exact Hk).
    unfold get_page_body, bind. rewrite WebFacts.requests_run.
    autorewrite with fields. rewrite Hnet.
    f_equal. apply world_eq; reflexivity || (cbn; now rewrite <- !app_assoc). }
  split; [exact Hrun|]. rewrite Hrun. cbn [snd].
  unfold lookup_live. autorewrite with fields.
  rewrite lookup_insert_ne by (apply not_eq_sym, WebFacts.count_key_differs).
  exact Hk.
Qed.

(** X15. [cache_result] with a time to live of zero or less: on a miss the
    wrapped method is called, then the server refuses the [SETEX]; the
    wrapper raises that error in place of returning the result, and nothing
    is cached. *)
Theorem cache_result_needs_positive_expire (expire : Z)
    (method : string -> M string) (url result : string) (w w1 : world) :
  expire <= 0 ->
  lookup_live w url = None ->
  method url (log (Cmd (GET url)) w) = (Ok result, w1) ->
  cache_result expire method url w
  = (Raise Redis.invalid_expire, log (Cmd (SETEX url expire result)) w1).
Proof.
  intros He Hk Hm.
  rewrite WebFacts.cache_result_miss by (left; exact Hk).
  rewrite (bind_ok _ _ _ _ _ Hm).
  apply bind_raise.
  unfold Redis.setex, Redis.server_setex, bind, emit, lift. cbn [Redis.encode].
  apply Z.leb_le in He. now rewrite He.
Qed.

(** X16. When the key [url] holds something [get_page] cannot return (a
    list, or bytes that are not empty and not UTF-8), the call raises after
    counting the access and sending its [GET]: no request goes out and the
    record stays as it is. *)
Theorem get_page_unreadable_cache (url : string) (v : rvalue) (ttl : option Z)
    (w : world) (c : Z) :
  counter w ("count:" +:+ url) = Some c -> c < Redis.LLONG_MAX ->
  lookup_live w url = Some (Entry v ttl) ->
  (exists l, v = RList l) \/
  (exists c0 r, v = RString (String c0 r) /\ utf8_valid (String c0 r) = false) ->
  snd (get_page url w) =
    logs [Cmd (INCR ("count:" +:+ url)); Cmd (GET url)]
      (put ("count:" +:+ url)
         (Entry (RString (dec (c + 1))) (ttl_at w ("count:" +:+ url))) w) /\
  exists e, fst (get_page url w) = Raise e.
Proof.
  intros Hc Hn Hk Hbad. unfold get_page.
  rewrite (WebFacts.count_url_access_run _ _ _ c Hc Hn).
  destruct Hbad as [(l & ->) | (c0 & r & -> & Hinvalid)].
  - erewrite WebFacts.cache_result_wrongtype
      by (rewrite lookup_live_put_ne
            by (apply not_eq_sym, WebFacts.count_key_differs); exact Hk).
    cbn [fst snd]. split; [|eexists; reflexivity].
    apply world_eq; reflexivity || (cbn; now rewrite <- !app_assoc).
  - erewrite WebFacts.cache_result_hit
      by (rewrite lookup_live_put_ne
            by (apply not_eq_sym, WebFacts.count_key_differs); exact Hk).
    unfold decode. rewrite Hinvalid. cbn [fst snd raise].
    split; [|eexists; reflexivity].
    apply world_eq; reflexivity || (cbn; now rewrite <- !app_assoc).
Qed.

(** X17. The two modules talk to the same database, so a new [Cache]
    wipes the page cache and the access counters too: the first [get_page]
    after it, for any URL that is served, sends the request, and the
    counter of that URL reads 1. *)
Theorem new_cache_wipes_page_cache (w : world) (url body : string) (t : Z) :
  let w1 := at_time t (snd (Exercise.Cache.__init__ w)) in
  internet w url = Some body ->
  fst (get_page url w1) = Ok body /\
  trace (snd (get_page url w1))
    = trace w ++ [Cmd FLUSHDB; Cmd (INCR ("count:" +:+ url)); Cmd (GET url);
                  Http url; Cmd (SETEX url 10 body)] /\
  counter (snd (get_page url w1)) ("count:" +:+ url) = Some 1.
Proof.
  intros w1 Hnet.
  assert (forall k, lookup_live w1 k = None) as Hempty.
  { intros k. unfold lookup_live. subst w1. cbn [db at_time set_env].
    rewrite ExerciseFacts.init_run. cbn [snd db set_db]. now rewrite lookup_empty. }
  assert (counter w1 ("count:" +:+ url) = Some 0) as Hc
    by (unfold counter; now rewrite Hempty).
  assert (ttl_at w1 ("count:" +:+ url) = None) as Httl
    by (unfold ttl_at; now rewrite Hempty).
  rewrite (WebFacts.get_page_miss url body w1 0 Hc
             ltac:(unfold Redis.LLONG_MAX; lia) (Hempty url) Hnet).
  cbn [fst snd]. rewrite Httl. split; [reflexivity|]. split.
  - autorewrite with fields. subst w1. rewrite ExerciseFacts.init_run.
    cbn [snd]. autorewrite with fields. cbn [trace set_db].
    autorewrite with fields. rewrite <- app_assoc. reflexivity.
  - unfold counter.
    rewrite lookup_live_put_ne by (apply WebFacts.count_key_differs).
    unfold lookup_live. autorewrite with fields. rewrite lookup_insert_eq.
    reflexivity.
Qed.

End More.
End WebMore.

(** ** Worked instances of the further properties *)

Module WorkedMore.
Import Py World Runtime View Exercise Web WorldFacts Demo.

Ltac differ := let Heq := fresh in intro Heq; vm_compute in Heq; discriminate Heq.

Lemma store_leaves_other_records_witness :
  let k := "00000000-0000-4000-8000-000000000000" in
  (k <> "Cache.store" /\ k <> "Cache.store:inputs" /\
   k <> "Cache.store:outputs" /\ k <> next_key busy) /\
  fst (Cache.get k None (snd (call Cache.store [PInt 7] busy)))
    = fst (Cache.get k None busy).
Proof.
  intros k.
  assert (k <> "Cache.store") as H1 by differ.
  assert (k <> "Cache.store:inputs") as H2 by differ.
  assert (k <> "Cache.store:outputs") as H3 by differ.
  assert (k <> next_key busy) as H4 by differ.
  split; [auto|].
  exact (proj2 (ExerciseMore.store_leaves_other_records [PInt 7] busy k H1 H2 H3 H4)).
Defined.

Lemma store_returns_its_key_witness :
  let r := PStr "00000000-0000-4000-8000-000000000000" in
  let w' := snd (call Cache.store [PInt 7] fresh) in
  (list_at fresh "Cache.store:inputs" = Some [] /\
   list_at fresh "Cache.store:outputs" = Some [] /\
   counter fresh "Cache.store" = Some 0 /\
   call Cache.store [PInt 7] fresh = (Ok r, w')) /\
  r = PStr (next_key fresh) /\ String.length (next_key fresh) = 36%nat.
Proof.
  intros r w'.
  assert (list_at fresh "Cache.store:inputs" = Some []) as H1 by reflexivity.
  assert (list_at fresh "Cache.store:outputs" = Some []) as H2 by reflexivity.
  assert (counter fresh "Cache.store" = Some 0) as H3 by reflexivity.
  assert (call Cache.store [PInt 7] fresh = (Ok r, w')) as H4
    by (vm_compute; reflexivity).
  split; [auto|].
  destruct (ExerciseMore.store_returns_its_key fresh w' [PInt 7] r 0 [] [] H1 H2 H3 H4)
    as (Hr & Hlen & _).
  split; [exact Hr | exact Hlen].
Defined.

Lemma get_str_round_trip_witness :
  let r := call Cache.store [PStr "bar"] fresh in
  (list_at fresh "Cache.store:inputs" = Some [] /\
   list_at fresh "Cache.store:outputs" = Some [] /\
   counter fresh "Cache.store" = Some 0 /\ 0 < Redis.LLONG_MAX /\
   utf8_valid "bar" = true /\
   lookup_live foreign "blob" = Some (Entry (RString raw) None) /\
   utf8_valid raw = false) /\
  fst (Cache.get_str (next_key fresh) (at_time 60000 (snd r))) = Ok (PStr "bar") /\
  fst (Cache.get_str "blob" foreign) = Raise UnicodeDecodeError.
Proof.
  intros r.
  assert (list_at fresh "Cache.store:inputs" = Some []) as H1 by reflexivity.
  assert (list_at fresh "Cache.store:outputs" = Some []) as H2 by reflexivity.
  assert (counter fresh "Cache.store" = Some 0) as H3 by reflexivity.
  assert (0 < Redis.LLONG_MAX) as H4 by reflexivity.
  assert (utf8_valid "bar" = true) as H5 by reflexivity.
  assert (lookup_live foreign "blob" = Some (Entry (RString raw) None)) as H6
    by (vm_compute; reflexivity).
  assert (utf8_valid raw = false) as H7 by reflexivity.
  split; [auto 10|].
  destruct (ExerciseMore.get_str_round_trip fresh "bar" 0 [] [] 60000 foreign "blob"
              raw None H1 H2 H3 H4 H5 H6 H7) as (Hgood & Hbad).
  split; [exact (f_equal fst Hgood) | exact (f_equal fst Hbad)].
Defined.

Lemma get_on_a_list_raises_witness :
  lookup_live busy "Cache.store:inputs"
    = Some (Entry (RList ["('a',)"; "('b',)"; "(3,)"]) None) /\
  Cache.get "Cache.store:inputs" None busy
    = (Raise Redis.WRONGTYPE, log (Cmd (GET "Cache.store:inputs")) busy).
Proof.
  assert (lookup_live busy "Cache.store:inputs"
          = Some (Entry (RList ["('a',)"; "('b',)"; "(3,)"]) None)) as H1
    by (vm_compute; reflexivity).
  split; [exact H1|].
  exact (proj1 (ExerciseMore.get_on_a_list_raises _ _ _ None busy H1)).
Defined.

Lemma store_count_reads_back_witness :
  (three_calls <> [] /\
   Script.call_all Cache.store three_calls (snd (Cache.__init__ fresh))
   = (Ok (map PStr three_keys), busy)) /\
  fst (Cache.get "Cache.store" None (at_time 60000 busy)) = Ok (PBytes "3") /\
  fst (Cache.get_int "Cache.store" (at_time 60000 busy)) = Ok (PInt 3).
Proof.
  assert (three_calls <> []) as H1 by discriminate.
  assert (Script.call_all Cache.store three_calls (snd (Cache.__init__ fresh))
          = (Ok (map PStr three_keys), busy)) as H2 by (vm_compute; reflexivity).
  split; [auto|].
  exact (ExerciseMore.store_count_reads_back fresh busy three_calls
           (map PStr three_keys) 60000 H1 H2).
Defined.

Lemma count_calls_refused_skips_method_witness :
  let method := Callable "Cache.store:inputs" (fun _ => raise TypeError) in
  counter busy "Cache.store:inputs" = None /\
  snd (call (count_calls method) [] busy)
    = log (Cmd (INCR "Cache.store:inputs")) busy.
Proof.
  intros method.
  assert (counter busy "Cache.store:inputs" = None) as H1 by (vm_compute; reflexivity).
  split; [exact H1|].
  exact (proj1 (ExerciseMore.count_calls_refused_skips_method method [] busy
                  (or_introl H1))).
Defined.


Lemma replay_stops_at_undecodable_witness :
  (list_at foreign "m:inputs" = Some ["(1,)"; raw; "(3,)"] /\
   list_at foreign "m:outputs" = Some ["a"; "b"; "c"] /\
   zip ["(1,)"; raw; "(3,)"] ["a"; "b"; "c"]
     = [("(1,)", "a")] ++ (raw, "b") :: [("(3,)", "c")] /\
   Forall (fun p => utf8_valid (fst p) = true /\ utf8_valid (snd p) = true)
          [("(1,)", "a")] /\
   (utf8_valid raw = false \/ utf8_valid "b" = false)) /\
  replay noted foreign =
    (Raise UnicodeDecodeError,
     logs [Cmd (LRANGE "m:inputs" 0 (-1)); Cmd (LRANGE "m:outputs" 0 (-1));
           Print "m was called 3 times:"; Print "m(*(1,)) -> a"] foreign).
Proof.
  assert (list_at foreign "m:inputs" = Some ["(1,)"; raw; "(3,)"]) as H1
    by (vm_compute; reflexivity).
  assert (list_at foreign "m:outputs" = Some ["a"; "b"; "c"]) as H2
    by (vm_compute; reflexivity).
  assert (zip ["(1,)"; raw; "(3,)"] ["a"; "b"; "c"]
          = [("(1,)", "a")] ++ (raw, "b") :: [("(3,)", "c")]) as H3 by reflexivity.
  assert (Forall (fun p => utf8_valid (fst p) = true /\ utf8_valid (snd p) = true)
                 [("(1,)", "a")]) as H4 by (repeat constructor).
  assert (utf8_valid raw = false \/ utf8_valid "b" = false) as H5
    by (left; reflexivity).
  split; [auto 10|].
  exact (ExerciseMore.replay_stops_at_undecodable noted foreign _ _ _ _ _ _
           H1 H2 H3 H4 H5).
Defined.

Lemma replay_after_refused_store_witness :
  let w1 := snd (call Cache.store [PNone] busy) in
  (list_at busy "Cache.store:inputs" = Some ["('a',)"; "('b',)"; "(3,)"] /\
   list_at busy "Cache.store:outputs" = Some three_keys /\
   counter busy "Cache.store" = Some 3 /\ 3 < Redis.LLONG_MAX /\
   Redis.encode PNone = Raise DataError /\
   length ["('a',)"; "('b',)"; "(3,)"] = length three_keys /\
   Forall (fun i => utf8_valid i = true) ["('a',)"; "('b',)"; "(3,)"] /\
   Forall (fun o => utf8_valid o = true) three_keys) /\
  trace (snd (replay Cache.store w1)) =
    trace w1 ++
    [Cmd (LRANGE "Cache.store:inputs" 0 (-1));
     Cmd (LRANGE "Cache.store:outputs" 0 (-1));
     Print "Cache.store was called 4 times:";
     Print "Cache.store(*('a',)) -> 00000000-0000-4000-8000-000000000000";
     Print "Cache.store(*('b',)) -> 00000000-0000-4000-9234-56789abcdef0";
     Print "Cache.store(*(3,)) -> 00000000-0000-4000-a468-acf13579bde0"].
Proof.
  intros w1.
  assert (list_at busy "Cache.store:inputs" = Some ["('a',)"; "('b',)"; "(3,)"])
    as H1 by (vm_compute; reflexivity).
  assert (list_at busy "Cache.store:outputs" = Some three_keys)
    as H2 by (vm_compute; reflexivity).
  assert (counter busy "Cache.store" = Some 3) as H3 by (vm_compute; reflexivity).
  assert (3 < Redis.LLONG_MAX) as H4 by reflexivity.
  assert (Redis.encode PNone = Raise DataError) as H5 by reflexivity.
  assert (length ["('a',)"; "('b',)"; "(3,)"] = length three_keys) as H6
    by reflexivity.
  assert (Forall (fun i => utf8_valid i = true) ["('a',)"; "('b',)"; "(3,)"])
    as H7 by (repeat constructor).
  assert (Forall (fun o => utf8_valid o = true) three_keys)
    as H8 by (repeat constructor).
  split; [auto 12|].
  destruct (ExerciseMore.replay_after_refused_store busy PNone DataError 3 _ _
              H1 H2 H3 H4 H5 H6 H7 H8) as (_ & Hreplay & _).
  fold w1 in Hreplay. rewrite Hreplay. reflexivity.
Defined.

Lemma replay_after_stores_witness :
  (Script.call_all Cache.store three_calls (snd (Cache.__init__ fresh))
   = (Ok (map PStr three_keys), busy) /\
   Forall (fun c => utf8_valid (str_tuple (snd c)) = true) three_calls) /\
  trace (snd (replay Cache.store (at_time 60000 busy))) =
    trace busy ++
    [Cmd (LRANGE "Cache.store:inputs" 0 (-1));
     Cmd (LRANGE "Cache.store:outputs" 0 (-1));
     Print "Cache.store was called 3 times:";
     Print "Cache.store(*('a',)) -> 00000000-0000-4000-8000-000000000000";
     Print "Cache.store(*('b',)) -> 00000000-0000-4000-9234-56789abcdef0";
     Print "Cache.store(*(3,)) -> 00000000-0000-4000-a468-acf13579bde0"].
Proof.
  assert (Script.call_all Cache.store three_calls (snd (Cache.__init__ fresh))
          = (Ok (map PStr three_keys), busy)) as H1 by (vm_compute; reflexivity).
  assert (Forall (fun c => utf8_valid (str_tuple (snd c)) = true) three_calls)
    as H2 by (repeat constructor).
  split; [auto|].
  rewrite (proj1 (ExerciseMore.replay_after_stores fresh busy three_calls
                    (map PStr three_keys) 60000 H1 H2)).
  vm_compute. reflexivity.
Defined.


Lemma get_page_failed_fetch_witness :
  (counter fresh ("count:" +:+ down_page) = Some 0 /\ 0 < Redis.LLONG_MAX /\
   lookup_live fresh down_page = None /\ internet fresh down_page = None) /\
  fst (get_page down_page fresh) = Raise RequestException /\
  lookup_live (snd (get_page down_page fresh)) down_page = None.
Proof.
  assert (counter fresh ("count:" +:+ down_page) = Some 0) as H1 by reflexivity.
  assert (0 < Redis.LLONG_MAX) as H2 by reflexivity.
  assert (lookup_live fresh down_page = None) as H3 by reflexivity.
  assert (internet fresh down_page = None) as H4 by reflexivity.
  split; [auto|].
  destruct (WebMore.get_page_failed_fetch down_page fresh 0 H1 H2 H3 H4)
    as (Hrun & Habsent).
  split; [exact (f_equal fst Hrun) | exact Habsent].
Defined.


Lemma cache_result_needs_positive_expire_witness :
  let w1 := log (Http hello_page) (log (Cmd (GET hello_page)) fresh) in
  (0 <= 0 /\ lookup_live fresh hello_page = None /\
   get_page_body hello_page (log (Cmd (GET hello_page)) fresh) = (Ok "hello", w1)) /\
  cache_result 0 get_page_body hello_page fresh
  = (Raise Redis.invalid_expire, log (Cmd (SETEX hello_page 0 "hello")) w1).
Proof.
  intros w1.
  assert (0 <= 0) as H1 by (vm_compute; discriminate).
  assert (lookup_live fresh hello_page = None) as H2 by reflexivity.
  assert (get_page_body hello_page (log (Cmd (GET hello_page)) fresh)
          = (Ok "hello", w1)) as H3 by reflexivity.
  split; [auto|].
  exact (WebMore.cache_result_needs_positive_expire 0 get_page_body hello_page
           "hello" fresh w1 H1 H2 H3).
Defined.

Lemma get_page_unreadable_cache_witness :
  (counter foreign ("count:" +:+ hello_page) = Some 0 /\ 0 < Redis.LLONG_MAX /\
   lookup_live foreign hello_page = Some (Entry (RString raw) None) /\
   utf8_valid raw = false) /\
  trace (snd (get_page hello_page foreign))
    = [Cmd (INCR "count:http://hello.example"); Cmd (GET hello_page)].
Proof.
  assert (counter foreign ("count:" +:+ hello_page) = Some 0) as H1
    by (vm_compute; reflexivity).
  assert (0 < Redis.LLONG_MAX) as H2 by reflexivity.
  assert (lookup_live foreign hello_page = Some (Entry (RString raw) None)) as H3
    by (vm_compute; reflexivity).
  assert (utf8_valid raw = false) as H4 by reflexivity.
  split; [auto|].
  rewrite (proj1 (WebMore.get_page_unreadable_cache hello_page (RString raw) None
                    foreign 0 H1 H2 H3
                    (or_intror (ex_intro _ (ascii_of_N 255)
                                  (ex_intro _ EmptyString (conj eq_refl H4)))))).
  reflexivity.
Defined.

Lemma new_cache_wipes_page_cache_witness :
  let dirty := snd (get_page hello_page fresh) in
  let w1 := at_time 3000 (snd (Cache.__init__ dirty)) in
  internet dirty hello_page = Some "hello" /\
  fst (get_page hello_page w1) = Ok "hello" /\
  counter (snd (get_page hello_page w1)) ("count:" +:+ hello_page) = Some 1.
Proof.
  intros dirty w1.
  assert (internet dirty hello_page = Some "hello") as H1 by reflexivity.
  split; [exact H1|].
  destruct (WebMore.new_cache_wipes_page_cache dirty hello_page "hello" 3000 H1)
    as (Hfst & _ & Hcount).
  split; [exact Hfst | exact Hcount].
Defined.


End WorkedMore.
